(** * FastSLAM particle filter: particles.cpp and particle-filter.cpp

    A shallow embedding of the two translation units of the FastSLAM core,
    [src/FastSLAM/particles.cpp] (class [FastSLAMParticles]) and
    [src/FastSLAM/particle-filter.cpp] (class [FastSLAMPF]).

    Conventions of the embedding.
    - C++ [int] values are [Z].  Containers are assumed to hold fewer than
      2^30 elements, so no index computation of the source overflows.
    - C++ [float] is the carrier of the class [FloatOps]; the source only
      compares, adds and divides floats, so these are the operations of the
      class.  What the theorems need of the order is stated for the values
      that are numbers (not NaN), see [FloatOrder].
    - [std::vector<T>] is [list T], indexed with stdpp's lookup; an access
      out of range is undefined behaviour in C++ and a [Fault] here.
    - [std::unique_ptr<T>] owns its pointee exclusively, so it is the value
      [T]; [std::shared_ptr<RobotManager2D>] may be null and is an [option].
    - [std::unordered_map<int, P>] is the list of its nodes in iteration
      order.  The standard leaves that order unspecified: where a new node is
      linked is the parameter [um_link] of the class [HashPolicy].
    - Eigen, the robot manager, the landmark EKF and MathUtil are not part of
      the two files; their operations are the fields of the classes below.
      Calls to the random number generator thread an explicit state [RNG].
    - The module [Mock] instantiates every interface over exact rationals
      with a NaN, and [Scenario] fixes a small run of the filter; the general
      theorems are applied and the code is evaluated there. *)

From Stdlib Require Import ZArith QArith Lia.
From stdpp Require Import base list.

Open Scope Z_scope.

(** ** Undefined behaviour *)

Inductive fault : Type :=
| OutOfBounds         (* operator[] past the end of a vector, or on a missing key *)
| UninitialisedRead   (* a local read before any assignment *)
| NullDereference     (* -> on a null smart pointer *)
| OutOfRange          (* std::out_of_range thrown by at() *)
| OutOfFuel.          (* the loop bound of the model was reached *)

Inductive outcome (A : Type) : Type :=
| Done (a : A)
| Fault (f : fault).
Arguments Done {A} a.
Arguments Fault {A} f.

#[global] Instance outcome_ret : MRet outcome := fun A a => Done a.
#[global] Instance outcome_bind : MBind outcome := fun A B k m =>
  match m with
  | Done a => k a
  | Fault f => Fault f
  end.

Definition deref {A : Type} (p : option A) : outcome A :=
  match p with
  | Some a => Done a
  | None => Fault NullDereference
  end.

(** The value a member function returns, without the state it leaves *)
Definition returned {A B : Type} (r : outcome (A * B)) : outcome A :=
  match r with
  | Done (a, _) => Done a
  | Fault f => Fault f
  end.

(** [v[i]] on a [std::vector] *)
Definition vec_at {A : Type} (v : list A) (i : Z) : outcome A :=
  if i <? 0 then Fault OutOfBounds
  else match v !! Z.to_nat i with
       | Some a => Done a
       | None => Fault OutOfBounds
       end.

(** ** The enumerations of particle-filter.h *)

Module PF_RET.
Inductive t : Type :=
| SUCCESS
| EMPTY_ROBOT_MANAGER
| MATRIX_INVERSION_ERROR
| UPDATE_ERROR.
End PF_RET.

Module KF_RET.
Inductive t : Type :=
| SUCCESS
| EMPTY_ROBOT_MANAGER
| MATRIX_INVERSION_ERROR.
End KF_RET.

(** The code that [updateLMBelief] returns for a status of the EKF update *)
Definition PF_RET_of_KF (status : KF_RET.t) : PF_RET.t :=
  match status with
  | KF_RET.SUCCESS => PF_RET.SUCCESS
  | KF_RET.EMPTY_ROBOT_MANAGER => PF_RET.EMPTY_ROBOT_MANAGER
  | KF_RET.MATRIX_INVERSION_ERROR => PF_RET.MATRIX_INVERSION_ERROR
  end.

(** ** Interfaces of the collaborators *)

Class FloatOps : Type := {
  float : Type;
  float_of_int : Z -> float;            (* literals, static_cast<float>(int) *)
  fadd : float -> float -> float;       (* a + b *)
  fdiv : float -> float -> float;       (* a / b *)
  flt : float -> float -> bool;         (* a < b *)
  fle : float -> float -> bool;         (* a <= b *)
  feq : float -> float -> bool;         (* a == b *)
  is_number : float -> Prop             (* not NaN *)
}.

(** [a > b] and [a >= b] of the source *)
Definition fgt {F : FloatOps} (a b : float) : bool := flt b a.
Definition fge {F : FloatOps} (a b : float) : bool := fle b a.

(** [std::max] *)
Definition fmax {F : FloatOps} (a b : float) : float := if flt a b then b else a.

(** The comparisons restricted to numbers form a strict weak order, and
    [<=] is the complement of [>]. *)
Class FloatOrder {F : FloatOps} : Prop := {
  flt_irrefl : forall a, is_number a -> flt a a = false;
  flt_trans : forall a b c, is_number a -> is_number b -> is_number c ->
    flt a b = true -> flt b c = true -> flt a c = true;
  flt_cotrans : forall a b c, is_number a -> is_number b -> is_number c ->
    flt a b = true -> flt a c = true \/ flt c b = true;
  fle_not_gt : forall a b, is_number a -> is_number b ->
    fle a b = negb (flt b a)
}.

Class EigenOps {F : FloatOps} : Type := {
  Matrix2f : Type;
  Matrix3f : Type;
  Vector3f : Type;
  m2_Identity : Matrix2f;                         (* Matrix2f::Identity() *)
  m2_determinant : Matrix2f -> float;
  m2_inverse : Matrix2f -> Matrix2f;
  m2_transpose : Matrix2f -> Matrix2f;
  m2_mul : Matrix2f -> Matrix2f -> Matrix2f;
  m3_Zero : Matrix3f;                             (* Matrix3f::Zero() *)
  v3_Zero : Vector3f;                             (* Vector3f::Zero() *)
  v3_make : float -> float -> float -> Vector3f;  (* coefficients 0, 1, 2 *)
  v3_cwiseSqrt : Vector3f -> Vector3f;
  v3_cwiseMax0 : Vector3f -> Vector3f;            (* cwiseMax(0): not called by the source *)
  v3_asDiagonal : Vector3f -> Matrix3f;
  m3_mul : Matrix3f -> Matrix3f -> Matrix3f;
  m3_mulv : Matrix3f -> Vector3f -> Vector3f;
  (* Eigen::LLT: [Some L] when info() == Eigen::Success, L = matrixL() *)
  LLT : Matrix3f -> option Matrix3f;
  (* Eigen::SelfAdjointEigenSolver *)
  eigenvalues : Matrix3f -> Vector3f;
  eigenvectors : Matrix3f -> Matrix3f
}.

Section Geometry.
Context {F : FloatOps}.

Record Pose2D : Type := { pose_x : float; pose_y : float; theta_rad : float }.

Record Point2D : Type := { pt_x : float; pt_y : float }.

End Geometry.

Class RobotManagerOps {F : FloatOps} {E : EigenOps} : Type := {
  Observation2D : Type;
  RobotManager2D : Type;
  getProcessNoise : RobotManager2D -> Matrix3f;
  getMeasNoise : RobotManager2D -> Matrix2f;
  inverseMeas : RobotManager2D -> Pose2D -> Observation2D -> Point2D;
  measJacobian : RobotManager2D -> Point2D -> Matrix2f;
  getPerceptualRange : RobotManager2D -> float
}.

Class LMEKFOps {F : FloatOps} {E : EigenOps} {R : RobotManagerOps} : Type := {
  LMEKF2D : Type;
  (* LMEKF2D(mean, covariance, robot) *)
  LMEKF2D_new : Point2D -> Matrix2f -> option RobotManager2D -> LMEKF2D;
  (* LMEKF2D(const LMEKF2D&) *)
  LMEKF2D_copy : LMEKF2D -> LMEKF2D;
  updateObservation : Observation2D -> LMEKF2D -> LMEKF2D;
  update : LMEKF2D -> KF_RET.t * LMEKF2D;
  calcCPD : LMEKF2D -> float;
  getLMEst : LMEKF2D -> Point2D
}.

Class MathUtilOps {F : FloatOps} {E : EigenOps} : Type := {
  RNG : Type;
  sampleNormal : float -> float -> RNG -> float * RNG;
  sampleUniform : float -> float -> RNG -> float * RNG;
  findDist : Point2D -> Pose2D -> float;
  (* Pose2D::operator+=(Vector3f) of the header *)
  Pose2D_add : Pose2D -> Vector3f -> Pose2D
}.

(** Values that only the missing header fixes. *)
Class HeaderConsts {F : FloatOps} : Type := {
  PF_RET_int : PF_RET.t -> Z;          (* static_cast<int>(PF_RET::...) *)
  DEFAULT_NUM_PARTICLE : Z;
  DEFAULT_IMPORTANCE_FACTOR : float
}.

(** Where [std::unordered_map] links a node for a key it does not hold yet. *)
Class HashPolicy : Type := {
  um_link : forall {V : Type}, Z * V -> list (Z * V) -> list (Z * V);
  um_link_perm : forall (V : Type) (kv : Z * V) (m : list (Z * V)),
    um_link kv m ≡ₚ kv :: m
}.

(** ** std::unordered_map<int, V> *)

Section UnorderedMap.
Context {HP : HashPolicy} {V : Type}.

Fixpoint um_find (k : Z) (m : list (Z * V)) : option V :=
  match m with
  | [] => None
  | (k', v) :: m' => if k' =? k then Some v else um_find k m'
  end.

(** [m.insert({k, v})]: nothing happens when the key is present *)
Definition um_insert (kv : Z * V) (m : list (Z * V)) : list (Z * V) :=
  match um_find (fst kv) m with
  | Some _ => m
  | None => um_link kv m
  end.

(** [*m[k]] for a map of owning pointers: [operator[]] on a missing key
    creates a null pointer, whose dereference is undefined *)
Definition um_at (m : list (Z * V)) (k : Z) : outcome V :=
  match um_find k m with
  | Some v => Done v
  | None => Fault NullDereference
  end.

End UnorderedMap.

(** ** MathUtil::genCDF *)

Section MathUtil.
Context {F : FloatOps}.

Fixpoint genCDF_from (acc : float) (weights : list float) : list float :=
  match weights with
  | [] => []
  | w :: ws => fadd acc w :: genCDF_from (fadd acc w) ws
  end.

(** Modelled from the spec: MathUtil::genCDF is not among the sources.
    Section 4.1: [cdf[i]] is the sum of [weights[j]] for [j <= i], the
    returned total is the last entry, and an empty input gives an empty
    CDF and total 0. *)
Definition genCDF (weights : list float) : float * list float :=
  let cdf := genCDF_from (float_of_int 0) weights in
  (default (float_of_int 0) (last cdf), cdf).

End MathUtil.

(** ** FastSLAMPF::drawWithReplacement *)

Section DrawWithReplacement.
Context {F : FloatOps}.

(** The [while (start != end)] loop.  [middle] is [None] until the loop body
    assigns it: the source declares [int middle;] without an initialiser. *)
Fixpoint drawWithReplacement_loop (fuel : nat) (cdf_vec : list float)
    (sample : float) (start end_ : Z) (middle : option Z)
    : Z * Z * option Z + fault :=
  if start =? end_ then inl (start, end_, middle)
  else
    match fuel with
    | O => inr OutOfFuel
    | S fuel' =>
        let middle := (start + end_) `quot` 2 in
        match vec_at cdf_vec middle with
        | Fault f => inr f
        | Done c =>
            if fge sample c
            then drawWithReplacement_loop fuel' cdf_vec sample (middle + 1) end_ (Some middle)
            else drawWithReplacement_loop fuel' cdf_vec sample start middle (Some middle)
        end
    end.

Definition drawWithReplacement (cdf_vec : list float) (sample : float)
    : outcome Z :=
  let start := 0 in
  let end_ := Z.of_nat (length cdf_vec) - 1 in
  (* sample < 0 || sample > cdf_vec[end], evaluated left to right *)
  if flt sample (float_of_int 0) then Done (-1)
  else
    back ← vec_at cdf_vec end_;
    if fgt sample back then Done (-1)
    else
      match drawWithReplacement_loop (length cdf_vec) cdf_vec sample start end_ None with
      | inr f => Fault f
      | inl (_, _, Some middle) => Done middle
      | inl (_, _, None) => Fault UninitialisedRead
      end.

(** The index the spec names (section 4.6): [cdf[j-1] <= u < cdf[j]], with
    [cdf[-1] = 0]. *)
Definition cdf_interval (cdf_vec : list float) (u : float) (j : nat) : Prop :=
  fle (match j with
       | O => float_of_int 0
       | S i => default (float_of_int 0) (cdf_vec !! i)
       end) u = true /\
  exists hi, cdf_vec !! j = Some hi /\ flt u hi = true.

(** The bounds the binary search maintains: the entry before [start] is at
    most the sample, and the entry at [end] exceeds it unless [end] is still
    the last index. *)
Definition below_start (cdf_vec : list float) (sample : float) (start : Z) : Prop :=
  start = 0 \/
  exists lo, cdf_vec !! Z.to_nat (start - 1) = Some lo /\ fle lo sample = true.

Definition above_end (cdf_vec : list float) (sample : float) (end_ : Z) : Prop :=
  end_ = Z.of_nat (length cdf_vec) - 1 \/
  exists hi, cdf_vec !! Z.to_nat end_ = Some hi /\ flt sample hi = true.

End DrawWithReplacement.

(** ** class FastSLAMParticles (particles.cpp) *)

Section Particles.
Context {F : FloatOps} {E : EigenOps} {R : RobotManagerOps} {K : LMEKFOps}
  {M : MathUtilOps} {C : HeaderConsts}.

Record FastSLAMParticles : Type := {
  m_importance_factor : float;
  m_robot_pose : Pose2D;
  m_lmekf_bank : list (LMEKF2D * Z);    (* (EKF, existence counter) pairs *)
  m_data_label : Z;
  m_robot : option RobotManager2D;
  m_curr_max_wn : float
}.

Definition set_bank (bank : list (LMEKF2D * Z)) (p : FastSLAMParticles)
    : FastSLAMParticles :=
  {| m_importance_factor := m_importance_factor p;
     m_robot_pose := m_robot_pose p;
     m_lmekf_bank := bank;
     m_data_label := m_data_label p;
     m_robot := m_robot p;
     m_curr_max_wn := m_curr_max_wn p |}.

(** Modelled from the spec: the three-argument constructor is defined in the
    missing header.  Section 3: a particle starts at the caller's pose with
    an empty EKF bank.  The two transient members are written by
    [matchLandmark] before anything reads them; they start here as "new
    landmark" and [w0]. *)
Definition FastSLAMParticles_new (lm_importance_factor : float)
    (starting_pose : Pose2D) (robot : option RobotManager2D)
    : FastSLAMParticles :=
  {| m_importance_factor := lm_importance_factor;
     m_robot_pose := starting_pose;
     m_lmekf_bank := [];
     m_data_label := 0;
     m_robot := robot;
     m_curr_max_wn := lm_importance_factor |}.

(** The body of the copy constructor: [for (const auto& it : m_lmekf_bank)]
    pushes a copy of each pair it visits onto [m_lmekf_bank]. *)
Definition copy_bank_loop (visited : list (LMEKF2D * Z))
    (bank : list (LMEKF2D * Z)) : list (LMEKF2D * Z) :=
  foldl (fun bank it => bank ++ [(LMEKF2D_copy (fst it), snd it)]) bank visited.

(** [FastSLAMParticles(const FastSLAMParticles& part)].  The member
    initialiser list copies five members; [m_lmekf_bank] is not in it and is
    default-constructed, empty.  The loop then ranges over [m_lmekf_bank],
    the bank of the particle under construction, not over
    [part.m_lmekf_bank]. *)
Definition FastSLAMParticles_copy (part : FastSLAMParticles)
    : FastSLAMParticles :=
  let this := {| m_importance_factor := m_importance_factor part;
                 m_robot_pose := m_robot_pose part;
                 m_lmekf_bank := [];
                 m_data_label := m_data_label part;
                 m_robot := m_robot part;
                 m_curr_max_wn := m_curr_max_wn part |} in
  set_bank (copy_bank_loop (m_lmekf_bank this) (m_lmekf_bank this)) this.

(** The copy the spec asks for: every pair of the source is duplicated. *)
Definition deep_copy (part : FastSLAMParticles) : FastSLAMParticles :=
  set_bank (copy_bank_loop (m_lmekf_bank part) []) part.

(** The loop of [matchLandmark]: the state is the part of the bank already
    visited, [landmark_id], [idx] and [max_wn]. *)
Fixpoint matchLandmark_loop (curr_obs : Observation2D)
    (bank : list (LMEKF2D * Z)) (landmark_id idx : Z) (max_wn : float)
    : list (LMEKF2D * Z) * Z * float :=
  match bank with
  | [] => ([], landmark_id, max_wn)
  | (ekf, count) :: rest =>
      let ekf := updateObservation curr_obs ekf in
      let w_n := calcCPD ekf in
      let '(landmark_id, max_wn) :=
        if fgt w_n max_wn then (idx, w_n) else (landmark_id, max_wn) in
      let '(rest, landmark_id, max_wn) :=
        matchLandmark_loop curr_obs rest landmark_id (idx + 1) max_wn in
      ((ekf, count) :: rest, landmark_id, max_wn)
  end.

Definition matchLandmark (curr_obs : Observation2D) (p : FastSLAMParticles)
    : Z * FastSLAMParticles :=
  let w_0 := m_importance_factor p in
  let landmark_id := Z.of_nat (length (m_lmekf_bank p)) in
  let idx := 0 in
  let max_wn := w_0 in
  let '(bank, landmark_id, max_wn) :=
    matchLandmark_loop curr_obs (m_lmekf_bank p) landmark_id idx max_wn in
  (landmark_id,
   {| m_importance_factor := m_importance_factor p;
      m_robot_pose := m_robot_pose p;
      m_lmekf_bank := bank;
      m_data_label := landmark_id;
      m_robot := m_robot p;
      m_curr_max_wn := max_wn |}).

Definition updateLMBelief (curr_obs : Observation2D) (p : FastSLAMParticles)
    : outcome (PF_RET.t * FastSLAMParticles) :=
  match m_robot p with
  | None => Done (PF_RET.EMPTY_ROBOT_MANAGER, p)
  | Some robot =>
      if m_data_label p =? Z.of_nat (length (m_lmekf_bank p)) then
        (* initiate new EKF *)
        let proposed_mean := inverseMeas robot (m_robot_pose p) curr_obs in
        let meas_jacobian := measJacobian robot proposed_mean in
        let proposed_cov :=
          if feq (m2_determinant meas_jacobian) (float_of_int 0)
          then m2_Identity
          else m2_mul (m2_mul (m2_inverse meas_jacobian) (getMeasNoise robot))
                      (m2_transpose (m2_inverse meas_jacobian)) in
        let new_lmefk := LMEKF2D_new proposed_mean proposed_cov (m_robot p) in
        Done (PF_RET.SUCCESS, set_bank (m_lmekf_bank p ++ [(new_lmefk, 1)]) p)
      else
        entry ← vec_at (m_lmekf_bank p) (m_data_label p);
        let filter_to_update := updateObservation curr_obs (fst entry) in
        let '(status, filter_to_update) := update filter_to_update in
        let at_label := Z.to_nat (m_data_label p) in
        match status with
        | KF_RET.EMPTY_ROBOT_MANAGER =>
            Done (PF_RET.EMPTY_ROBOT_MANAGER,
                  set_bank (<[at_label := (filter_to_update, snd entry)]> (m_lmekf_bank p)) p)
        | KF_RET.MATRIX_INVERSION_ERROR =>
            Done (PF_RET.MATRIX_INVERSION_ERROR,
                  set_bank (<[at_label := (filter_to_update, snd entry)]> (m_lmekf_bank p)) p)
        | _ =>
            Done (PF_RET.SUCCESS,
                  set_bank (<[at_label := (filter_to_update, snd entry + 1)]> (m_lmekf_bank p)) p)
        end
  end.

(** The loop of [cleanUpSightings] (compiled under LM_CLEANUP).  [i] is
    incremented in the branch that skips the labelled EKF and nowhere else. *)
Fixpoint cleanUpSightings_loop (robot : option RobotManager2D) (pose : Pose2D)
    (data_label : Z) (bank : list (LMEKF2D * Z)) (i : Z)
    : outcome (list (LMEKF2D * Z)) :=
  match bank with
  | [] => Done []
  | it :: rest =>
      if i =? data_label
      then
        rest ← cleanUpSightings_loop robot pose data_label rest (i + 1);
        Done (it :: rest)
      else
        r ← deref robot;
        let it :=
          if fle (findDist (getLMEst (fst it)) pose) (getPerceptualRange r)
          then (fst it, snd it - 1)
          else it in
        rest ← cleanUpSightings_loop robot pose data_label rest i;
        Done (it :: rest)
  end.

Definition cleanUpSightings (p : FastSLAMParticles) : outcome FastSLAMParticles :=
  bank ← cleanUpSightings_loop (m_robot p) (m_robot_pose p) (m_data_label p)
            (m_lmekf_bank p) 0;
  Done (set_bank bank p).

Definition updatePose (new_pose : Pose2D) (p : FastSLAMParticles)
    : PF_RET.t * FastSLAMParticles :=
  (PF_RET.SUCCESS,
   {| m_importance_factor := m_importance_factor p;
      m_robot_pose := new_pose;
      m_lmekf_bank := m_lmekf_bank p;
      m_data_label := m_data_label p;
      m_robot := m_robot p;
      m_curr_max_wn := m_curr_max_wn p |}).

(** Modelled from the spec: [getParticleWeight] is defined in the missing
    header.  Section 4.4: the contribution is the winning correspondence
    [w_max] when an existing landmark was matched and [w0] otherwise;
    [matchLandmark] leaves exactly that value in [m_curr_max_wn]. *)
Definition getParticleWeight (p : FastSLAMParticles) : float :=
  m_curr_max_wn p.

(** [updateParticle(new_obs)]; [LM_CLEANUP] is the preprocessor symbol. *)
Definition updateParticle (LM_CLEANUP : bool) (new_obs : Observation2D)
    (p : FastSLAMParticles) : outcome (float * FastSLAMParticles) :=
  match m_robot p with
  | None => Done (float_of_int (-1), p)
  | Some _ =>
      let res_code := 0 in
      let '(_, p) := matchLandmark new_obs p in
      '(ret, p) ← updateLMBelief new_obs p;
      let res_code := res_code + PF_RET_int ret in
      if negb (res_code =? PF_RET_int PF_RET.SUCCESS)
      then Done (float_of_int (PF_RET_int PF_RET.UPDATE_ERROR), p)
      else
        p ← (if LM_CLEANUP then cleanUpSightings p else Done p);
        Done (getParticleWeight p, p)
  end.

(** Modelled from the spec: the two-argument [updateParticle] that
    [updateFilter] calls is declared in the missing header.  Section 4.4:
    update the pose to the sampled pose, then match, update the belief and
    yield the weight as the one-argument function does. *)
Definition updateParticle_at (LM_CLEANUP : bool) (new_obs : Observation2D)
    (new_pose : Pose2D) (p : FastSLAMParticles)
    : outcome (float * FastSLAMParticles) :=
  let '(_, p) := updatePose new_pose p in
  updateParticle LM_CLEANUP new_obs p.

Definition getLandmarkCoordinates (p : FastSLAMParticles) : list Point2D :=
  foldl (fun landmarks ekf => landmarks ++ [getLMEst (fst ekf)]) [] (m_lmekf_bank p).

(** The correspondence densities that [matchLandmark] reads, in bank order *)
Definition cpds (z : Observation2D) (bank : list (LMEKF2D * Z)) : list float :=
  map (fun it => calcCPD (updateObservation z (fst it))) bank.

(** The bank after every EKF has buffered [z] *)
Definition observed (z : Observation2D) (bank : list (LMEKF2D * Z))
    : list (LMEKF2D * Z) :=
  map (fun it => (updateObservation z (fst it), snd it)) bank.

(** What [cleanUpSightings] does to a pair it does not skip *)
Definition sighting_missed (robot : RobotManager2D) (pose : Pose2D)
    (it : LMEKF2D * Z) : LMEKF2D * Z :=
  if fle (findDist (getLMEst (fst it)) pose) (getPerceptualRange robot)
  then (fst it, snd it - 1)
  else it.

End Particles.

(** ** class FastSLAMPF (particle-filter.cpp) *)

Section ParticleFilter.
Context {F : FloatOps} {E : EigenOps} {R : RobotManagerOps} {K : LMEKFOps}
  {M : MathUtilOps} {C : HeaderConsts} {HP : HashPolicy}.

Record FastSLAMPF : Type := {
  m_robot_pf : option RobotManager2D;                 (* FastSLAMPF::m_robot *)
  m_num_particles : Z;
  m_particle_set : list (Z * FastSLAMParticles);      (* std::unordered_map *)
  m_particle_weights : list float
}.

Definition set_particles (set : list (Z * FastSLAMParticles))
    (weights : list float) (pf : FastSLAMPF) : FastSLAMPF :=
  {| m_robot_pf := m_robot_pf pf;
     m_num_particles := m_num_particles pf;
     m_particle_set := set;
     m_particle_weights := weights |}.

(** The [for (int i = 0; i < m_num_particles; i++)] loop of the constructor;
    [todo] counts the iterations left. *)
Fixpoint FastSLAMPF_new_loop (todo : nat) (i : Z) (pf : FastSLAMPF)
    (starting_pose : Pose2D) (lm_importance_factor : float) : FastSLAMPF :=
  match todo with
  | O => pf
  | S todo' =>
      let new_particle :=
        FastSLAMParticles_new lm_importance_factor starting_pose (m_robot_pf pf) in
      let pf :=
        set_particles
          (um_insert (i, new_particle) (m_particle_set pf))
          (m_particle_weights pf ++
             [fdiv (float_of_int 1) (float_of_int (m_num_particles pf))])
          pf in
      FastSLAMPF_new_loop todo' (i + 1) pf starting_pose lm_importance_factor
  end.

Definition FastSLAMPF_new (rob_ptr : option RobotManager2D) (num_particles : Z)
    (starting_pose : Pose2D) (lm_importance_factor : float) : FastSLAMPF :=
  FastSLAMPF_new_loop (Z.to_nat num_particles) 0
    {| m_robot_pf := rob_ptr;
       m_num_particles := num_particles;
       m_particle_set := [];
       m_particle_weights := [] |}
    starting_pose lm_importance_factor.

Definition FastSLAMPF_default (rob_ptr : option RobotManager2D) : FastSLAMPF :=
  FastSLAMPF_new rob_ptr DEFAULT_NUM_PARTICLE
    {| pose_x := float_of_int 0; pose_y := float_of_int 0;
       theta_rad := float_of_int 0 |}
    DEFAULT_IMPORTANCE_FACTOR.

(** The factor [l_cholesky] that [samplePose] computes from the process
    noise: the Cholesky factor when LLT succeeds, else eigenvectors times
    the diagonal of the square roots of the eigenvalues. *)
Definition samplePose_factor (noise : Matrix3f) : Matrix3f :=
  match LLT noise with
  | Some l => l
  | None =>
      m3_mul (eigenvectors noise)
             (v3_asDiagonal (v3_cwiseSqrt (eigenvalues noise)))
  end.

(** The factor as the spec words it (section 4.5): the eigenvalues are
    clamped to zero before the square root.  Only used to state what the
    spec asks of [samplePose_factor]. *)
Definition samplePose_factor_clamped (noise : Matrix3f) : Matrix3f :=
  match LLT noise with
  | Some l => l
  | None =>
      m3_mul (eigenvectors noise)
             (v3_asDiagonal (v3_cwiseSqrt (v3_cwiseMax0 (eigenvalues noise))))
  end.

(** What the zero-noise case of [samplePose] needs of Eigen: a Cholesky
    factor of the zero matrix, if LLT reports one, is zero; the fallback
    factor of the zero matrix is zero; the zero matrix maps every vector of
    numbers to the zero vector. *)
Class EigenZeroLaws : Prop := {
  LLT_Zero : forall l, LLT m3_Zero = Some l -> l = m3_Zero;
  eigen_Zero :
    m3_mul (eigenvectors m3_Zero)
           (v3_asDiagonal (v3_cwiseSqrt (eigenvalues m3_Zero))) = m3_Zero;
  mulv_Zero : forall z0 z1 z2,
    is_number z0 -> is_number z1 -> is_number z2 ->
    m3_mulv m3_Zero (v3_make z0 z1 z2) = v3_Zero
}.

Definition samplePose (pf : FastSLAMPF) (a_pose_mean : Pose2D) (rng : RNG)
    : outcome (Pose2D * RNG) :=
  robot ← deref (m_robot_pf pf);
  let l_cholesky := samplePose_factor (getProcessNoise robot) in
  let '(z0, rng) := sampleNormal (float_of_int 0) (float_of_int 1) rng in
  let '(z1, rng) := sampleNormal (float_of_int 0) (float_of_int 1) rng in
  let '(z2, rng) := sampleNormal (float_of_int 0) (float_of_int 1) rng in
  let z := v3_make z0 z1 z2 in
  let ret := Pose2D_add a_pose_mean (m3_mulv l_cholesky z) in
  Done (ret, rng).

(** The loop of [reSampleParticles] over the nodes [its] of
    [m_particle_set] that are still to visit. *)
Fixpoint reSampleParticles_loop (particle_set its : list (Z * FastSLAMParticles))
    (cdf_table : list float) (total_weight : float)
    (aux_set : list (Z * FastSLAMParticles)) (rng : RNG)
    : outcome (list (Z * FastSLAMParticles) * RNG) :=
  match its with
  | [] => Done (aux_set, rng)
  | it :: rest =>
      let '(sampled_weight, rng) :=
        sampleUniform (float_of_int 0) total_weight rng in
      sampled_idx ← drawWithReplacement cdf_table sampled_weight;
      (* leave original particle if sampling goes wrong *)
      let sampled_idx := if sampled_idx >=? 0 then sampled_idx else fst it in
      drawn ← um_at particle_set sampled_idx;
      let particle_drew := FastSLAMParticles_copy drawn in
      let aux_set := um_insert (fst it, particle_drew) aux_set in
      reSampleParticles_loop particle_set rest cdf_table total_weight aux_set rng
  end.

Definition reSampleParticles (pf : FastSLAMPF) (rng : RNG)
    : outcome (FastSLAMPF * RNG) :=
  let '(total_weight, cdf_table) := genCDF (m_particle_weights pf) in
  '(aux_set, rng) ← reSampleParticles_loop (m_particle_set pf)
                      (m_particle_set pf) cdf_table total_weight [] rng;
  Done (set_particles aux_set (m_particle_weights pf) pf, rng).

(** The inner loop of [updateFilter]: one pass over the particle set for the
    observation at the front of the queue.  [idx] counts the nodes visited;
    the key of the node is [fst it]. *)
Fixpoint updateFilter_particles (LM_CLEANUP : bool) (pf : FastSLAMPF)
    (a_robot_pose_mean : Pose2D) (front : Observation2D)
    (its : list (Z * FastSLAMParticles)) (idx : Z)
    (weights : list float) (rng : RNG)
    : outcome (list (Z * FastSLAMParticles) * list float * RNG) :=
  match its with
  | [] => Done ([], weights, rng)
  | it :: rest =>
      '(rob_pose_sampled, rng) ← samplePose pf a_robot_pose_mean rng;
      '(w, particle) ← updateParticle_at LM_CLEANUP front rob_pose_sampled (snd it);
      old ← vec_at weights idx;
      let weights := <[Z.to_nat idx := fadd old w]> weights in
      '(rest, weights, rng) ←
        updateFilter_particles LM_CLEANUP pf a_robot_pose_mean front rest
          (idx + 1) weights rng;
      Done ((fst it, particle) :: rest, weights, rng)
  end.

(** The [while (!a_sighting_queue.empty())] loop. *)
Fixpoint updateFilter_drain (LM_CLEANUP : bool) (pf : FastSLAMPF)
    (a_robot_pose_mean : Pose2D) (a_sighting_queue : list Observation2D)
    (rng : RNG) : outcome (FastSLAMPF * list Observation2D * RNG) :=
  match a_sighting_queue with
  | [] => Done (pf, [], rng)
  | front :: popped =>
      '(set, weights, rng) ←
        updateFilter_particles LM_CLEANUP pf a_robot_pose_mean front
          (m_particle_set pf) 0 (m_particle_weights pf) rng;
      updateFilter_drain LM_CLEANUP (set_particles set weights pf)
        a_robot_pose_mean popped rng
  end.

Definition updateFilter (LM_CLEANUP : bool) (pf : FastSLAMPF)
    (a_robot_pose_mean : Pose2D) (a_sighting_queue : list Observation2D)
    (rng : RNG) : outcome (FastSLAMPF * list Observation2D * RNG) :=
  '(pf, a_sighting_queue, rng) ←
    updateFilter_drain LM_CLEANUP pf a_robot_pose_mean a_sighting_queue rng;
  '(pf, rng) ← reSampleParticles pf rng;
  Done (pf, a_sighting_queue, rng).

Definition bank_is_empty (kv : Z * FastSLAMParticles) : Prop :=
  m_lmekf_bank kv.2 = [].

(** A node whose particle is the copy-constructed copy of a particle of
    [set] *)
Definition installed_from (set : list (Z * FastSLAMParticles))
    (kv : Z * FastSLAMParticles) : Prop :=
  exists src, src ∈ map snd set /\ kv.2 = FastSLAMParticles_copy src.

Definition sampleLandmarks (pf : FastSLAMPF) (rng : RNG)
    : outcome (list Point2D * RNG) :=
  let '(total_weight, cdf_table) := genCDF (m_particle_weights pf) in
  let '(sampled_weight, rng) :=
    sampleUniform (float_of_int 0) total_weight rng in
  sampled_idx ← drawWithReplacement cdf_table sampled_weight;
  match um_find sampled_idx (m_particle_set pf) with
  | Some particle => Done (getLandmarkCoordinates particle, rng)
  | None => Fault OutOfRange
  end.

End ParticleFilter.

(** ** A mock world for running the code

    Exact rational arithmetic with a NaN, and an instance of every interface
    over it.  Results are kept in lowest terms, so equal numbers are equal
    terms. *)

Module Mock.

Inductive xfloat : Type :=
| Num (q : Q)
| NaN.

Definition lift2 (f : Q -> Q -> Q) (a b : xfloat) : xfloat :=
  match a, b with
  | Num p, Num q => Num (Qred (f p q))
  | _, _ => NaN
  end.

Definition xadd : xfloat -> xfloat -> xfloat := lift2 Qplus.
Definition xsub : xfloat -> xfloat -> xfloat := lift2 Qminus.
Definition xmul : xfloat -> xfloat -> xfloat := lift2 Qmult.

(** No infinities: a division by zero gives NaN. *)
Definition xdiv (a b : xfloat) : xfloat :=
  match a, b with
  | Num p, Num q => if Qeq_bool q 0 then NaN else Num (Qred (p / q))
  | _, _ => NaN
  end.

(** Square root rounded down to the denominator of the argument; NaN on a
    negative number. *)
Definition xsqrt (a : xfloat) : xfloat :=
  match a with
  | Num q =>
      if Qle_bool 0 q
      then Num (Qred (Z.sqrt (Qnum q * Zpos (Qden q)) # Qden q))
      else NaN
  | NaN => NaN
  end.

Definition xlt (a b : xfloat) : bool :=
  match a, b with
  | Num p, Num q => negb (Qle_bool q p)
  | _, _ => false
  end.

Definition xle (a b : xfloat) : bool :=
  match a, b with
  | Num p, Num q => Qle_bool p q
  | _, _ => false
  end.

Definition xeq (a b : xfloat) : bool :=
  match a, b with
  | Num p, Num q => Qeq_bool p q
  | _, _ => false
  end.

Definition xnum (a : xfloat) : Prop :=
  match a with
  | Num _ => True
  | NaN => False
  end.

Definition xint (z : Z) : xfloat := Num (inject_Z z).

#[export] Instance mock_float : FloatOps := {|
  float := xfloat;
  float_of_int := xint;
  fadd := xadd;
  fdiv := xdiv;
  flt := xlt;
  fle := xle;
  feq := xeq;
  is_number := xnum
|}.

Record M2 : Type := { m00 : xfloat; m01 : xfloat; m10 : xfloat; m11 : xfloat }.

Record V3 : Type := { v0 : xfloat; v1 : xfloat; v2 : xfloat }.

Record M3 : Type := { row0 : V3; row1 : V3; row2 : V3 }.

Definition M2_identity : M2 :=
  {| m00 := xint 1; m01 := xint 0; m10 := xint 0; m11 := xint 1 |}.

Definition M2_det (a : M2) : xfloat :=
  xsub (xmul (m00 a) (m11 a)) (xmul (m01 a) (m10 a)).

(** Eigen inverts a 2x2 matrix through the reciprocal of its determinant. *)
Definition M2_inverse (a : M2) : M2 :=
  let invdet := xdiv (xint 1) (M2_det a) in
  {| m00 := xmul (m11 a) invdet;
     m01 := xmul (xsub (xint 0) (m01 a)) invdet;
     m10 := xmul (xsub (xint 0) (m10 a)) invdet;
     m11 := xmul (m00 a) invdet |}.

Definition M2_transpose (a : M2) : M2 :=
  {| m00 := m00 a; m01 := m10 a; m10 := m01 a; m11 := m11 a |}.

Definition M2_mul (a b : M2) : M2 :=
  {| m00 := xadd (xmul (m00 a) (m00 b)) (xmul (m01 a) (m10 b));
     m01 := xadd (xmul (m00 a) (m01 b)) (xmul (m01 a) (m11 b));
     m10 := xadd (xmul (m10 a) (m00 b)) (xmul (m11 a) (m10 b));
     m11 := xadd (xmul (m10 a) (m01 b)) (xmul (m11 a) (m11 b)) |}.

Definition V3_dot (a b : V3) : xfloat :=
  xadd (xadd (xmul (v0 a) (v0 b)) (xmul (v1 a) (v1 b))) (xmul (v2 a) (v2 b)).

Definition V3_map (f : xfloat -> xfloat) (a : V3) : V3 :=
  {| v0 := f (v0 a); v1 := f (v1 a); v2 := f (v2 a) |}.

Definition M3_col0 (a : M3) : V3 :=
  {| v0 := v0 (row0 a); v1 := v0 (row1 a); v2 := v0 (row2 a) |}.
Definition M3_col1 (a : M3) : V3 :=
  {| v0 := v1 (row0 a); v1 := v1 (row1 a); v2 := v1 (row2 a) |}.
Definition M3_col2 (a : M3) : V3 :=
  {| v0 := v2 (row0 a); v1 := v2 (row1 a); v2 := v2 (row2 a) |}.

Definition M3_mulv (a : M3) (v : V3) : V3 :=
  {| v0 := V3_dot (row0 a) v; v1 := V3_dot (row1 a) v; v2 := V3_dot (row2 a) v |}.

Definition M3_mul (a b : M3) : M3 :=
  let row r := {| v0 := V3_dot r (M3_col0 b);
                  v1 := V3_dot r (M3_col1 b);
                  v2 := V3_dot r (M3_col2 b) |} in
  {| row0 := row (row0 a); row1 := row (row1 a); row2 := row (row2 a) |}.

Definition M3_diag (d : V3) : M3 :=
  {| row0 := {| v0 := v0 d; v1 := xint 0; v2 := xint 0 |};
     row1 := {| v0 := xint 0; v1 := v1 d; v2 := xint 0 |};
     row2 := {| v0 := xint 0; v1 := xint 0; v2 := v2 d |} |}.

Definition M3_identity : M3 :=
  M3_diag {| v0 := xint 1; v1 := xint 1; v2 := xint 1 |}.

Definition M3_zero : M3 :=
  M3_diag {| v0 := xint 0; v1 := xint 0; v2 := xint 0 |}.

(** Cholesky as Eigen's unblocked LLT runs it: column by column, and a
    pivot that is not positive stops it with NumericalIssue. *)
Definition M3_llt (a : M3) : option M3 :=
  let a00 := v0 (row0 a) in
  if negb (xlt (xint 0) a00) then None else
  let l00 := xsqrt a00 in
  let l10 := xdiv (v0 (row1 a)) l00 in
  let l20 := xdiv (v0 (row2 a)) l00 in
  let x1 := xsub (v1 (row1 a)) (xmul l10 l10) in
  if negb (xlt (xint 0) x1) then None else
  let l11 := xsqrt x1 in
  let l21 := xdiv (xsub (v1 (row2 a)) (xmul l20 l10)) l11 in
  let x2 := xsub (v2 (row2 a)) (xadd (xmul l20 l20) (xmul l21 l21)) in
  if negb (xlt (xint 0) x2) then None else
  let l22 := xsqrt x2 in
  Some {| row0 := {| v0 := l00; v1 := xint 0; v2 := xint 0 |};
          row1 := {| v0 := l10; v1 := l11; v2 := xint 0 |};
          row2 := {| v0 := l20; v1 := l21; v2 := l22 |} |}.

(** The eigendecomposition of a diagonal matrix whose diagonal is in
    ascending order: the eigenvalues are the diagonal and the eigenvectors
    the identity.  The mock is only run on such matrices. *)
Definition M3_eigenvalues (a : M3) : V3 :=
  {| v0 := v0 (row0 a); v1 := v1 (row1 a); v2 := v2 (row2 a) |}.

Definition M3_eigenvectors (a : M3) : M3 := M3_identity.

Definition xclamp0 (a : xfloat) : xfloat :=
  if xlt a (xint 0) then xint 0 else a.

#[export] Instance mock_eigen : EigenOps := {|
  Matrix2f := M2;
  Matrix3f := M3;
  Vector3f := V3;
  m3_Zero := M3_zero;
  v3_Zero := {| v0 := xint 0; v1 := xint 0; v2 := xint 0 |};
  m2_Identity := M2_identity;
  m2_determinant := M2_det;
  m2_inverse := M2_inverse;
  m2_transpose := M2_transpose;
  m2_mul := M2_mul;
  v3_make := fun a b c => {| v0 := a; v1 := b; v2 := c |};
  v3_cwiseSqrt := V3_map xsqrt;
  v3_cwiseMax0 := V3_map xclamp0;
  v3_asDiagonal := M3_diag;
  m3_mul := M3_mul;
  m3_mulv := M3_mulv;
  LLT := M3_llt;
  eigenvalues := M3_eigenvalues;
  eigenvectors := M3_eigenvectors
|}.

(** The robot manager returns what it was configured with; a sighting is the
    offset of the landmark from the robot along the world axes. *)
Record MockRobot : Type := {
  rm_process_noise : M3;
  rm_meas_noise : M2;
  rm_jacobian : M2;
  rm_range : xfloat
}.

#[export] Instance mock_robot : RobotManagerOps := {|
  Observation2D := Point2D;
  RobotManager2D := MockRobot;
  getProcessNoise := rm_process_noise;
  getMeasNoise := rm_meas_noise;
  inverseMeas := fun _ pose obs =>
    {| pt_x := xadd (pose_x pose) (pt_x obs);
       pt_y := xadd (pose_y pose) (pt_y obs) |};
  measJacobian := fun r _ => rm_jacobian r;
  getPerceptualRange := rm_range
|}.

Record MockEKF : Type := {
  ekf_mean : Point2D;
  ekf_cov : M2;
  ekf_obs : option Point2D;           (* the buffered observation *)
  ekf_robot : option MockRobot
}.

Definition Point2D_eqb (p q : Point2D) : bool :=
  xeq (pt_x p) (pt_x q) && xeq (pt_y p) (pt_y q).

(** Density 8 when the buffered sighting falls on the landmark mean, 0
    elsewhere. *)
Definition MockEKF_calcCPD (e : MockEKF) : xfloat :=
  match ekf_obs e with
  | Some z => if Point2D_eqb z (ekf_mean e) then xint 8 else xint 0
  | None => xint 0
  end.

(** The update fails without a robot manager and on a singular covariance;
    otherwise the mean moves onto the buffered sighting. *)
Definition MockEKF_update (e : MockEKF) : KF_RET.t * MockEKF :=
  match ekf_robot e with
  | None => (KF_RET.EMPTY_ROBOT_MANAGER, e)
  | Some _ =>
      if xeq (M2_det (ekf_cov e)) (xint 0)
      then (KF_RET.MATRIX_INVERSION_ERROR, e)
      else (KF_RET.SUCCESS,
            {| ekf_mean := default (ekf_mean e) (ekf_obs e);
               ekf_cov := ekf_cov e;
               ekf_obs := ekf_obs e;
               ekf_robot := ekf_robot e |})
  end.

#[export] Instance mock_ekf : LMEKFOps := {|
  LMEKF2D := MockEKF;
  LMEKF2D_new := fun mean cov robot =>
    {| ekf_mean := mean; ekf_cov := cov; ekf_obs := None; ekf_robot := robot |};
  LMEKF2D_copy := fun e => e;
  updateObservation := fun z e =>
    {| ekf_mean := ekf_mean e; ekf_cov := ekf_cov e; ekf_obs := Some z;
       ekf_robot := ekf_robot e |};
  update := MockEKF_update;
  calcCPD := MockEKF_calcCPD;
  getLMEst := ekf_mean
|}.

(** The generator is a tape of draws made beforehand: standard normal draws
    for [sampleNormal], draws from [0, 1) for [sampleUniform]. *)
Definition tape_next (rng : list xfloat) : xfloat * list xfloat :=
  match rng with
  | [] => (xint 0, [])
  | u :: rng' => (u, rng')
  end.

Definition xsquare (a : xfloat) : xfloat := xmul a a.

#[export] Instance mock_mathutil : MathUtilOps := {|
  RNG := list xfloat;
  sampleNormal := fun mu sigma rng =>
    let '(u, rng) := tape_next rng in (xadd mu (xmul sigma u), rng);
  sampleUniform := fun a b rng =>
    let '(u, rng) := tape_next rng in (xadd a (xmul (xsub b a) u), rng);
  findDist := fun p pose =>
    xsqrt (xadd (xsquare (xsub (pt_x p) (pose_x pose)))
                (xsquare (xsub (pt_y p) (pose_y pose))));
  Pose2D_add := fun pose v =>
    {| pose_x := xadd (pose_x pose) (v0 v);
       pose_y := xadd (pose_y pose) (v1 v);
       theta_rad := xadd (theta_rad pose) (v2 v) |}
|}.

#[export] Instance mock_consts : HeaderConsts := {|
  PF_RET_int := fun r =>
    match r with
    | PF_RET.SUCCESS => 0
    | PF_RET.EMPTY_ROBOT_MANAGER => 1
    | PF_RET.MATRIX_INVERSION_ERROR => 2
    | PF_RET.UPDATE_ERROR => 3
    end;
  DEFAULT_NUM_PARTICLE := 100;
  DEFAULT_IMPORTANCE_FACTOR := xint 1
|}.

(** libstdc++ links the node of a key whose bucket is empty at the head of
    its node list: small distinct keys iterate in reverse insertion order. *)
Definition link_front : HashPolicy := {|
  um_link := fun V kv m => kv :: m;
  um_link_perm := fun V kv m => Permutation_refl (kv :: m)
|}.

(** A table that keeps its nodes in insertion order. *)
Definition link_back : HashPolicy := {|
  um_link := fun V kv m => m ++ [kv];
  um_link_perm := fun V kv m => Permutation_sym (Permutation_cons_append m kv)
|}.

End Mock.

(** ** A run of the filter in the mock world

    Two particles, identity process and measurement noise, the landmark
    sighted twice at offset (2, 0).  The tape makes the first node visited
    sample the mean pose and the second one the mean pose shifted by
    (1, 0), for both sightings. *)

Module Scenario.
Import Mock.

Definition origin : Pose2D :=
  {| pose_x := xint 0; pose_y := xint 0; theta_rad := xint 0 |}.

Definition shifted : Pose2D :=
  {| pose_x := xint 1; pose_y := xint 0; theta_rad := xint 0 |}.

Definition robot1 : RobotManager2D :=
  {| rm_process_noise := M3_identity;
     rm_meas_noise := M2_identity;
     rm_jacobian := M2_identity;
     rm_range := xint 5 |}.

Definition at_xy (px py : Z) : Point2D := {| pt_x := xint px; pt_y := xint py |}.

Definition z_a : Observation2D := at_xy 2 0.

Definition landmark (mean : Point2D) (obs : option Observation2D) : LMEKF2D :=
  {| ekf_mean := mean; ekf_cov := M2_identity; ekf_obs := obs;
     ekf_robot := Some robot1 |}.

Definition particle (pose : Pose2D) (bank : list (LMEKF2D * Z)) (label : Z)
    (max_wn : float) (robot : option RobotManager2D) : FastSLAMParticles :=
  {| m_importance_factor := xint 1;
     m_robot_pose := pose;
     m_lmekf_bank := bank;
     m_data_label := label;
     m_robot := robot;
     m_curr_max_wn := max_wn |}.

(** The filter as the constructor builds it on a table that links new
    nodes at the front: key 0 is inserted first and iterated last. *)
Definition filter_start : FastSLAMPF :=
  FastSLAMPF_new (HP := link_front) (Some robot1) 2 origin (xint 1).

(** The same on a table that iterates in insertion order. *)
Definition filter_start_in_order : FastSLAMPF :=
  FastSLAMPF_new (HP := link_back) (Some robot1) 2 origin (xint 1).

Definition normal_draws : RNG :=
  [xint 0; xint 0; xint 0;  xint 1; xint 0; xint 0;
   xint 0; xint 0; xint 0;  xint 1; xint 0; xint 0].

Definition uniform_draws : RNG := [xint 0; xint 0].

(** The particle that sampled the mean pose twice: it matched its landmark
    on the second sighting, with density 8. *)
Definition particle_A : FastSLAMParticles :=
  particle origin [(landmark (at_xy 2 0) (Some z_a), 2)] 0 (xint 8) (Some robot1).

(** The particle that sampled the shifted pose twice: it opened a landmark
    on each sighting and returned [w0 = 1] both times. *)
Definition particle_B : FastSLAMParticles :=
  particle shifted
    [(landmark (at_xy 3 0) (Some z_a), 1); (landmark (at_xy 3 0) None, 1)]
    1 (xint 1) (Some robot1).

Definition filter_drained : FastSLAMPF :=
  {| m_robot_pf := Some robot1;
     m_num_particles := 2;
     m_particle_set := [(1, particle_A); (0, particle_B)];
     m_particle_weights := [Num (19 # 2); Num (5 # 2)] |}.

Definition filter_drained_in_order : FastSLAMPF :=
  {| m_robot_pf := Some robot1;
     m_num_particles := 2;
     m_particle_set := [(0, particle_A); (1, particle_B)];
     m_particle_weights := [Num (19 # 2); Num (5 # 2)] |}.

Definition filter_resampled : FastSLAMPF :=
  {| m_robot_pf := Some robot1;
     m_num_particles := 2;
     m_particle_set :=
       [(0, particle shifted [] 1 (xint 1) (Some robot1));
        (1, particle shifted [] 1 (xint 1) (Some robot1))];
     m_particle_weights := [Num (19 # 2); Num (5 # 2)] |}.

(** A particle with three landmarks; the sighting [z_a] falls on the second
    and on the third. *)
Definition particle_three (label : Z) (robot : option RobotManager2D)
    : FastSLAMParticles :=
  particle origin
    [(landmark (at_xy 7 0) None, 1);
     (landmark (at_xy 2 0) None, 1);
     (landmark (at_xy 2 0) None, 3)]
    label (xint 1) robot.

Definition particle_fresh : FastSLAMParticles :=
  FastSLAMParticles_new (xint 1) origin (Some robot1).

(** Process noise with the eigenvalue -1/1024: not positive definite. *)
Definition noise_indefinite : Matrix3f :=
  M3_diag {| v0 := Num (-1 # 1024); v1 := xint 1; v2 := xint 1 |}.

Definition robot_with_noise (noise : Matrix3f) : RobotManager2D :=
  {| rm_process_noise := noise;
     rm_meas_noise := M2_identity;
     rm_jacobian := M2_identity;
     rm_range := xint 5 |}.

Definition filter_with_noise (noise : Matrix3f) : FastSLAMPF :=
  {| m_robot_pf := Some (robot_with_noise noise);
     m_num_particles := 0;
     m_particle_set := [];
     m_particle_weights := [] |}.

(** The two particles after the first sighting. *)
Definition particle_A1 : FastSLAMParticles :=
  particle origin [(landmark (at_xy 2 0) None, 1)] 0 (xint 1) (Some robot1).

Definition particle_B1 : FastSLAMParticles :=
  particle shifted [(landmark (at_xy 3 0) None, 1)] 0 (xint 1) (Some robot1).

(** A particle that has just matched its first landmark; the second one is
    three units from the pose, within the perceptual range 5. *)
Definition particle_seen (count : Z) : FastSLAMParticles :=
  particle origin
    [(landmark (at_xy 2 0) (Some z_a), 2); (landmark (at_xy 3 0) None, count)]
    0 (xint 8) (Some robot1).

(** A particle whose only landmark has a singular covariance: the mock EKF
    fails its update on it. *)
Definition particle_singular : FastSLAMParticles :=
  particle origin
    [({| ekf_mean := at_xy 2 0;
         ekf_cov := {| m00 := xint 1; m01 := xint 1; m10 := xint 1; m11 := xint 1 |};
         ekf_obs := None; ekf_robot := Some robot1 |}, 1)]
    0 (xint 1) (Some robot1).

(** A filter of one particle, and a filter built without a robot manager. *)
Definition filter_single : FastSLAMPF :=
  FastSLAMPF_new (HP := link_front) (Some robot1) 1 origin (xint 1).

Definition filter_null : FastSLAMPF :=
  FastSLAMPF_new (HP := link_front) None 2 origin (xint 1).

Definition pose_NaN : Pose2D :=
  {| pose_x := NaN; pose_y := NaN; theta_rad := NaN |}.

End Scenario.

(** * Properties *)

(** ** FastSLAMParticles *)

Section ParticleFacts.
Context {F : FloatOps} {E : EigenOps} {R : RobotManagerOps} {K : LMEKFOps}
  {M : MathUtilOps} {C : HeaderConsts}.

Implicit Types (p part : FastSLAMParticles) (z : Observation2D)
  (bank : list (LMEKF2D * Z)).

Lemma copy_bank_loop_app visited bank :
  copy_bank_loop visited bank =
  bank ++ map (fun it => (LMEKF2D_copy (fst it), snd it)) visited.
Proof.
  unfold copy_bank_loop. revert bank.
  induction visited as [|it visited IH]; intros bank; simpl.
  - by rewrite app_nil_r.
  - rewrite IH. by rewrite <- app_assoc.
Qed.

(** What the copy constructor builds, for every source particle. *)
Lemma FastSLAMParticles_copy_eq part :
  FastSLAMParticles_copy part = set_bank [] part.
Proof. reflexivity. Qed.

Lemma FastSLAMParticles_copy_bank part :
  m_lmekf_bank (FastSLAMParticles_copy part) = [].
Proof. reflexivity. Qed.

Lemma deep_copy_bank part :
  m_lmekf_bank (deep_copy part) =
  map (fun it => (LMEKF2D_copy (fst it), snd it)) (m_lmekf_bank part).
Proof. unfold deep_copy. simpl. by rewrite copy_bank_loop_app. Qed.

Lemma set_bank_id p : set_bank (m_lmekf_bank p) p = p.
Proof. by destruct p. Qed.

Lemma matchLandmark_loop_bank z bank landmark_id idx max_wn :
  (matchLandmark_loop z bank landmark_id idx max_wn).1.1 = observed z bank.
Proof.
  revert landmark_id idx max_wn.
  induction bank as [|[ekf count] rest IH]; intros landmark_id idx max_wn;
    simpl; [done|].
  destruct (fgt _ max_wn);
    (match goal with
     | |- context [matchLandmark_loop z rest ?a ?b ?c] =>
         specialize (IH a b c);
         destruct (matchLandmark_loop z rest a b c) as [[rest' id'] m']
     end); simpl in *; by rewrite IH.
Qed.

(** The maximum the loop keeps is the running [std::max] of the densities. *)
Lemma matchLandmark_loop_max z bank landmark_id idx max_wn :
  (matchLandmark_loop z bank landmark_id idx max_wn).2 =
  foldl fmax max_wn (cpds z bank).
Proof.
  revert landmark_id idx max_wn.
  induction bank as [|[ekf count] rest IH]; intros landmark_id idx max_wn;
    simpl; [done|].
  unfold fmax at 2, fgt.
  destruct (flt max_wn _);
    (match goal with
     | |- context [matchLandmark_loop z rest ?a ?b ?c] =>
         specialize (IH a b c);
         destruct (matchLandmark_loop z rest a b c) as [[rest' id'] m']
     end); simpl in *; by rewrite IH.
Qed.

(** Without any assumption on the order: the loop either keeps the label
    and maximum it started from, or ends on a bank position and the density
    read there. *)
Lemma matchLandmark_loop_label z bank landmark_id idx max_wn :
  let r := matchLandmark_loop z bank landmark_id idx max_wn in
  (r.1.2 = landmark_id /\ r.2 = max_wn) \/
  (idx <= r.1.2 < idx + Z.of_nat (length bank) /\
   cpds z bank !! Z.to_nat (r.1.2 - idx) = Some r.2).
Proof.
  revert landmark_id idx max_wn.
  induction bank as [|[ekf count] rest IH]; intros landmark_id idx max_wn;
    simpl; [by left|].
  destruct (fgt _ max_wn);
    (match goal with
     | |- context [matchLandmark_loop z rest ?a ?b ?c] =>
         specialize (IH a b c);
         destruct (matchLandmark_loop z rest a b c) as [[rest' id'] m']
     end); simpl in *.
  - right. destruct IH as [[-> ->]|[Hr Hl]].
    + split; [lia|]. by rewrite Z.sub_diag.
    + split; [lia|].
      replace (Z.to_nat (id' - idx)) with (S (Z.to_nat (id' - (idx + 1)))) by lia.
      done.
  - destruct IH as [[-> ->]|[Hr Hl]]; [by left|right].
    split; [lia|].
    replace (Z.to_nat (id' - idx)) with (S (Z.to_nat (id' - (idx + 1)))) by lia.
    done.
Qed.

Section Order.
Context {FO : FloatOrder}.

Lemma flt_asym (a b : float) :
  is_number a -> is_number b -> flt a b = true -> flt b a = false.
Proof.
  intros Ha Hb Hab. destruct (flt b a) eqn:Hba; [|done].
  rewrite <- (flt_irrefl a Ha). symmetry. by apply (flt_trans a b a).
Qed.

(** With the order laws: the loop ends on the first position whose density
    is the greatest, provided that density exceeds the starting maximum. *)
Lemma matchLandmark_loop_argmax z bank landmark_id idx max_wn :
  is_number max_wn ->
  Forall is_number (cpds z bank) ->
  let r := matchLandmark_loop z bank landmark_id idx max_wn in
  (r.1.2 = landmark_id /\ r.2 = max_wn /\
   forall k w, cpds z bank !! k = Some w -> flt max_wn w = false) \/
  (idx <= r.1.2 < idx + Z.of_nat (length bank) /\
   cpds z bank !! Z.to_nat (r.1.2 - idx) = Some r.2 /\
   flt max_wn r.2 = true /\
   (forall k w, cpds z bank !! k = Some w -> flt r.2 w = false) /\
   (forall k w, (k < Z.to_nat (r.1.2 - idx))%nat ->
      cpds z bank !! k = Some w -> flt w r.2 = true)).
Proof.
  revert landmark_id idx max_wn.
  induction bank as [|[ekf count] rest IH]; intros landmark_id idx max_wn Hm Hws;
    simpl.
  { left. repeat split. intros k w Hk. by destruct k. }
  simpl in Hws. apply Forall_cons in Hws as [Hw Hrest].
  set (w := calcCPD (updateObservation z ekf)) in *.
  unfold fgt. destruct (flt max_wn w) eqn:Hgt.
  - specialize (IH idx (idx + 1) w Hw Hrest).
    destruct (matchLandmark_loop z rest idx (idx + 1) w) as [[rest' id'] m'].
    simpl in *. right.
    destruct IH as [(-> & -> & Hub)|(Hr & Hl & Hlt & Hub & Hlow)].
    + split; [lia|]. rewrite Z.sub_diag. simpl.
      repeat split; [done| |].
      * intros [|k] w' Hk; simpl in Hk.
        -- assert (w' = w) as -> by congruence. by apply flt_irrefl.
        -- by eapply Hub.
      * intros k w' Hk. lia.
    + assert (Hm' : is_number m').
      { eapply Forall_lookup_1 in Hl; eauto. }
      split; [lia|].
      replace (Z.to_nat (id' - idx)) with (S (Z.to_nat (id' - (idx + 1)))) by lia.
      simpl. repeat split; [done| | |].
      * by apply (flt_trans max_wn w m').
      * intros [|k] w' Hk; simpl in Hk.
        -- assert (w' = w) as -> by congruence. by apply flt_asym.
        -- by eapply Hub.
      * intros [|k] w' Hlt' Hk; simpl in Hk.
        -- by assert (w' = w) as -> by congruence.
        -- eapply Hlow; [|done]. lia.
  - specialize (IH landmark_id (idx + 1) max_wn Hm Hrest).
    destruct (matchLandmark_loop z rest landmark_id (idx + 1) max_wn)
      as [[rest' id'] m'].
    simpl in *.
    destruct IH as [(-> & -> & Hub)|(Hr & Hl & Hlt & Hub & Hlow)].
    + left. repeat split.
      intros [|k] w' Hk; simpl in Hk.
      * by assert (w' = w) as -> by congruence.
      * by eapply Hub.
    + assert (Hm' : is_number m').
      { eapply Forall_lookup_1 in Hl; eauto. }
      right. split; [lia|].
      replace (Z.to_nat (id' - idx)) with (S (Z.to_nat (id' - (idx + 1)))) by lia.
      simpl. repeat split; [done|done| |].
      * intros [|k] w' Hk; simpl in Hk.
        -- assert (w' = w) as -> by congruence.
           destruct (flt m' w) eqn:Hc; [|done].
           rewrite <- Hgt. symmetry. by apply (flt_trans max_wn m' w).
        -- by eapply Hub.
      * intros [|k] w' Hlt' Hk; simpl in Hk.
        -- assert (w' = w) as -> by congruence.
           destruct (flt_cotrans max_wn m' w Hm Hm' Hw Hlt) as [Hc|Hc];
             [congruence|done].
        -- eapply Hlow; [|done]. lia.
Qed.

(** C4. For every particle and observation whose densities and importance
    factor are numbers, [matchLandmark] returns the size of the bank when no
    density strictly exceeds [w0], and otherwise the lowest index that
    attains the greatest density; it leaves the returned value in
    [m_data_label], within [0, bank.size()], and the maximum of [w0] and all
    densities in [m_curr_max_wn], which is therefore at least [w0]. *)
Theorem matchLandmark_argmax z p :
  is_number (m_importance_factor p) ->
  Forall is_number (cpds z (m_lmekf_bank p)) ->
  let ws := cpds z (m_lmekf_bank p) in
  let n := Z.of_nat (length (m_lmekf_bank p)) in
  let w_0 := m_importance_factor p in
  let id := (matchLandmark z p).1 in
  let p' := (matchLandmark z p).2 in
  m_data_label p' = id /\ 0 <= id <= n /\
  m_lmekf_bank p' = observed z (m_lmekf_bank p) /\
  ((forall k w, ws !! k = Some w -> fgt w w_0 = false) -> id = n) /\
  ((exists k w, ws !! k = Some w /\ fgt w w_0 = true) ->
     id < n /\ ws !! Z.to_nat id = Some (m_curr_max_wn p') /\
     (forall k w, ws !! k = Some w -> fgt w (m_curr_max_wn p') = false) /\
     (forall k w, (k < Z.to_nat id)%nat -> ws !! k = Some w ->
        flt w (m_curr_max_wn p') = true)) /\
  m_curr_max_wn p' = foldl fmax w_0 ws /\
  (forall k w, ws !! k = Some w -> fge (m_curr_max_wn p') w = true) /\
  fge (m_curr_max_wn p') w_0 = true.
Proof.
  intros Hw0 Hws ws n w_0 id p'.
  pose proof (matchLandmark_loop_argmax z (m_lmekf_bank p) n 0 w_0 Hw0 Hws) as Hspec.
  pose proof (matchLandmark_loop_bank z (m_lmekf_bank p) n 0 w_0) as Hbank.
  pose proof (matchLandmark_loop_max z (m_lmekf_bank p) n 0 w_0) as Hmax.
  subst id p'. unfold matchLandmark. fold n w_0.
  destruct (matchLandmark_loop z (m_lmekf_bank p) n 0 w_0) as [[bank' id] m].
  simpl in *. fold ws in Hspec, Hmax.
  assert (Hnum : is_number m).
  { destruct Hspec as [(_ & -> & _)|(_ & Hl & _)]; [done|].
    by eapply Forall_lookup_1 in Hl. }
  assert (Hge0 : fge m w_0 = true).
  { unfold fge. rewrite fle_not_gt by done.
    destruct Hspec as [(_ & -> & _)|(_ & _ & Hlt & _)].
    - by rewrite flt_irrefl.
    - by rewrite flt_asym. }
  assert (Hub : forall k w, ws !! k = Some w -> flt m w = false).
  { destruct Hspec as [(_ & -> & Hub)|(_ & _ & _ & Hub & _)]; done. }
  split; [done|]. split.
  { destruct Hspec as [(-> & _)|(Hr & _)]; lia. }
  split; [done|]. split.
  { intros Hnone. destruct Hspec as [(-> & _)|(Hr & Hl & Hlt & _)]; [done|].
    rewrite Z.sub_0_r in Hl. apply Hnone in Hl. unfold fgt in Hl. congruence. }
  split.
  { intros (k & w & Hk & Hgt).
    destruct Hspec as [(_ & -> & Hub')|(Hr & Hl & Hlt & _ & Hlow)].
    - apply Hub' in Hk. unfold fgt in Hgt. congruence.
    - rewrite Z.sub_0_r in Hl, Hlow. repeat split; [lia|done|done|done]. }
  split; [done|]. split; [|done].
  intros k w Hk. unfold fge. rewrite fle_not_gt.
  - by rewrite (Hub k w Hk).
  - by eapply Forall_lookup_1 in Hk.
  - done.
Qed.

End Order.

(** *** updateLMBelief *)

Lemma vec_at_lookup {A : Type} (v : list A) (i : Z) (a : A) :
  0 <= i -> v !! Z.to_nat i = Some a -> vec_at v i = Done a.
Proof.
  intros Hi Hl. unfold vec_at.
  destruct (i <? 0) eqn:Hneg; [lia|]. by rewrite Hl.
Qed.

Lemma vec_at_Done {A : Type} (v : list A) (i : Z) (a : A) :
  vec_at v i = Done a -> 0 <= i /\ v !! Z.to_nat i = Some a.
Proof.
  unfold vec_at. destruct (i <? 0) eqn:Hneg; [done|].
  destruct (v !! Z.to_nat i) eqn:Hl; [|done].
  intros [= ->]. split; [lia|done].
Qed.

(** C5. With a robot manager present: when [m_data_label] equals the size
    of the bank, [updateLMBelief] appends exactly one EKF, built from the
    mean [inverseMeas(pose, z)] and the covariance that is the identity
    when the determinant of the measurement Jacobian compares equal to 0
    and inverse(H) * R * transpose(inverse(H)) otherwise, paired with the
    counter 1; when [m_data_label] indexes an EKF whose Kalman update
    succeeds, the counter paired with it grows by exactly 1, and the bank
    keeps its length and all its other entries. *)
Theorem updateLMBelief_bank z p robot :
  m_robot p = Some robot ->
  (m_data_label p = Z.of_nat (length (m_lmekf_bank p)) ->
   let mu := inverseMeas robot (m_robot_pose p) z in
   let H := measJacobian robot mu in
   let cov :=
     if feq (m2_determinant H) (float_of_int 0) then m2_Identity
     else m2_mul (m2_mul (m2_inverse H) (getMeasNoise robot))
                 (m2_transpose (m2_inverse H)) in
   updateLMBelief z p =
   Done (PF_RET.SUCCESS,
         set_bank (m_lmekf_bank p ++ [(LMEKF2D_new mu cov (Some robot), 1)]) p)) /\
  (forall ekf count ekf',
   0 <= m_data_label p ->
   m_lmekf_bank p !! Z.to_nat (m_data_label p) = Some (ekf, count) ->
   update (updateObservation z ekf) = (KF_RET.SUCCESS, ekf') ->
   exists bank',
     updateLMBelief z p = Done (PF_RET.SUCCESS, set_bank bank' p) /\
     length bank' = length (m_lmekf_bank p) /\
     bank' !! Z.to_nat (m_data_label p) = Some (ekf', count + 1) /\
     forall j, j <> Z.to_nat (m_data_label p) ->
       bank' !! j = m_lmekf_bank p !! j).
Proof.
  intros Hrobot. split.
  - intros Hlabel. unfold updateLMBelief. rewrite Hrobot, Hlabel.
    by rewrite Z.eqb_refl.
  - intros ekf count ekf' Hpos Hentry Hupd.
    exists (<[Z.to_nat (m_data_label p) := (ekf', count + 1)]> (m_lmekf_bank p)).
    assert (Hlt : (Z.to_nat (m_data_label p) < length (m_lmekf_bank p))%nat)
      by (by eapply lookup_lt_Some).
    repeat split.
    + unfold updateLMBelief. rewrite Hrobot.
      destruct (m_data_label p =? _) eqn:Heq; [lia|].
      rewrite (vec_at_lookup _ _ _ Hpos Hentry). simpl. by rewrite Hupd.
    + by rewrite length_insert.
    + by rewrite list_lookup_insert_eq.
    + intros j Hj. by rewrite list_lookup_insert_ne.
Qed.

(** After [matchLandmark] the label is in range, so [updateLMBelief] is
    defined, and it leaves the recorded maximum and the robot handle alone. *)
Lemma updateLMBelief_after_match z p robot :
  m_robot p = Some robot ->
  exists ret p2,
    updateLMBelief z (matchLandmark z p).2 = Done (ret, p2) /\
    ret <> PF_RET.UPDATE_ERROR /\
    m_curr_max_wn p2 = m_curr_max_wn (matchLandmark z p).2 /\
    m_data_label p2 = (matchLandmark z p).1 /\
    m_robot p2 = Some robot.
Proof.
  intros Hrobot.
  pose proof (matchLandmark_loop_label z (m_lmekf_bank p)
                (Z.of_nat (length (m_lmekf_bank p))) 0 (m_importance_factor p)) as Hl.
  pose proof (matchLandmark_loop_bank z (m_lmekf_bank p)
                (Z.of_nat (length (m_lmekf_bank p))) 0 (m_importance_factor p)) as Hb.
  unfold matchLandmark.
  destruct (matchLandmark_loop z (m_lmekf_bank p) _ 0 _) as [[bank' id] m].
  simpl in *. subst bank'.
  unfold updateLMBelief. simpl. rewrite Hrobot.
  assert (Hlen : length (observed z (m_lmekf_bank p)) = length (m_lmekf_bank p))
    by apply length_map.
  rewrite Hlen.
  destruct (id =? Z.of_nat (length (m_lmekf_bank p))) eqn:Hid.
  { eexists _, _. by repeat split. }
  destruct Hl as [[-> _]|[Hr _]]; [lia|].
  destruct (lookup_lt_is_Some_2 (observed z (m_lmekf_bank p)) (Z.to_nat id))
    as [entry Hentry]; [lia|].
  rewrite (vec_at_lookup _ _ entry) by (done || lia). simpl.
  destruct (update (updateObservation z entry.1)) as [status ekf'].
  destruct status; eexists _, _; by repeat split.
Qed.

(** *** cleanUpSightings *)

Lemma cleanUpSightings_loop_off robot pose data_label bank i :
  i <> data_label ->
  cleanUpSightings_loop (Some robot) pose data_label bank i =
  Done (map (sighting_missed robot pose) bank).
Proof.
  intros Hi. induction bank as [|it rest IH]; simpl; [done|].
  destruct (i =? data_label) eqn:Heq; [lia|].
  by rewrite IH.
Qed.

(** The loop as a whole: the pair at the head is skipped exactly when the
    label is the starting value of [i]; no other pair is skipped. *)
Lemma cleanUpSightings_loop_eq robot pose data_label bank i :
  cleanUpSightings_loop (Some robot) pose data_label bank i =
  Done (match bank with
        | it :: rest =>
            if i =? data_label
            then it :: map (sighting_missed robot pose) rest
            else map (sighting_missed robot pose) bank
        | [] => []
        end).
Proof.
  destruct bank as [|it rest]; [done|].
  destruct (i =? data_label) eqn:Heq.
  - simpl. rewrite Heq. by rewrite cleanUpSightings_loop_off by lia.
  - rewrite cleanUpSightings_loop_off by lia. done.
Qed.

Lemma sighting_missed_fst robot pose it :
  (sighting_missed robot pose it).1 = it.1.
Proof. unfold sighting_missed. by destruct (fle _ _). Qed.

(** With a robot manager the cleanup is defined and only writes the bank. *)
Lemma cleanUpSightings_Done p robot :
  m_robot p = Some robot ->
  exists bank', cleanUpSightings p = Done (set_bank bank' p).
Proof.
  intros Hrobot. unfold cleanUpSightings.
  rewrite Hrobot, cleanUpSightings_loop_eq. by eexists.
Qed.

(** C9, as the code has it.  With a robot manager present,
    [cleanUpSightings] lowers by one the counter of every EKF other than the
    labelled one whose mean is within the perceptual range of the pose, and
    leaves the counter of every other EKF that is not the labelled one as it
    was; the counter is not held at zero, and no pair leaves the bank: the
    bank keeps its length and its EKFs. *)
Theorem cleanUpSightings_counters p robot :
  m_robot p = Some robot ->
  exists bank',
    cleanUpSightings p = Done (set_bank bank' p) /\
    length bank' = length (m_lmekf_bank p) /\
    map fst bank' = map fst (m_lmekf_bank p) /\
    forall k ekf count,
      m_lmekf_bank p !! k = Some (ekf, count) ->
      Z.of_nat k <> m_data_label p ->
      bank' !! k =
      Some (ekf,
            if fle (findDist (getLMEst ekf) (m_robot_pose p))
                   (getPerceptualRange robot)
            then count - 1 else count).
Proof.
  intros Hrobot. unfold cleanUpSightings. rewrite Hrobot.
  rewrite cleanUpSightings_loop_eq.
  assert (Hmiss : forall k ekf count bank,
            bank !! k = Some (ekf, count) ->
            map (sighting_missed robot (m_robot_pose p)) bank !! k =
            Some (ekf,
                  if fle (findDist (getLMEst ekf) (m_robot_pose p))
                         (getPerceptualRange robot)
                  then count - 1 else count)).
  { intros k ekf count bank Hk. rewrite list_lookup_fmap, Hk. simpl.
    unfold sighting_missed. simpl. by destruct (fle _ _). }
  assert (Hfst : forall bank,
            map fst (map (sighting_missed robot (m_robot_pose p)) bank) =
            map fst bank).
  { intros bank. rewrite map_map. apply map_ext. intros it.
    apply sighting_missed_fst. }
  destruct (m_lmekf_bank p) as [|it rest].
  { exists []. by split; [|split; [|split]]. }
  destruct (0 =? m_data_label p) eqn:Hlabel.
  - eexists. split; [reflexivity|]. split; [|split].
    + simpl. f_equal. apply length_map.
    + simpl. f_equal. apply Hfst.
    + intros [|k] ekf count Hk Hne; [lia|]. simpl in *. by apply Hmiss.
  - eexists. split; [reflexivity|]. split; [|split].
    + apply length_map.
    + apply Hfst.
    + intros k ekf count Hk Hne. by apply Hmiss.
Qed.

(** *** updateParticle *)

(** C10. A particle without a robot manager answers every observation with
    -1.0 at once: nothing of it changes, so the bank, the counters, the data
    label and the current maximum are as before and no EKF has buffered the
    observation. *)
Theorem updateParticle_null_robot LM_CLEANUP z p :
  m_robot p = None ->
  updateParticle LM_CLEANUP z p = Done (float_of_int (-1), p).
Proof. intros Hnull. unfold updateParticle. by rewrite Hnull. Qed.

(** C6. For a particle with a robot manager whose enumerators have distinct
    integer values: [updateLMBelief], run on the particle that
    [matchLandmark] leaves, returns a code; when the code is not SUCCESS
    (then it is EMPTY_ROBOT_MANAGER or MATRIX_INVERSION_ERROR)
    [updateParticle] yields the sentinel UPDATE_ERROR, and when it is
    SUCCESS [updateParticle] yields the maximum that [matchLandmark]
    recorded: the density of the matched EKF when the label indexes the
    bank, and [w0] when the label is the size of the bank. *)
Theorem updateParticle_weight LM_CLEANUP z p robot :
  m_robot p = Some robot ->
  (forall r, PF_RET_int r = PF_RET_int PF_RET.SUCCESS -> r = PF_RET.SUCCESS) ->
  let n := Z.of_nat (length (m_lmekf_bank p)) in
  let id := (matchLandmark z p).1 in
  let p1 := (matchLandmark z p).2 in
  exists ret p2,
    updateLMBelief z p1 = Done (ret, p2) /\
    (ret <> PF_RET.SUCCESS ->
       (ret = PF_RET.EMPTY_ROBOT_MANAGER \/ ret = PF_RET.MATRIX_INVERSION_ERROR) /\
       updateParticle LM_CLEANUP z p =
       Done (float_of_int (PF_RET_int PF_RET.UPDATE_ERROR), p2)) /\
    (ret = PF_RET.SUCCESS ->
       (exists p3,
          updateParticle LM_CLEANUP z p = Done (m_curr_max_wn p1, p3)) /\
       (id < n ->
          cpds z (m_lmekf_bank p) !! Z.to_nat id = Some (m_curr_max_wn p1)) /\
       (id = n -> m_curr_max_wn p1 = m_importance_factor p)).
Proof.
  intros Hrobot Hinj n id p1.
  destruct (updateLMBelief_after_match z p robot Hrobot)
    as (ret & p2 & Hupd & Hnot & Hmax & Hlabel & Hrobot2).
  exists ret, p2. split; [done|].
  assert (Hrun : updateParticle LM_CLEANUP z p =
                 if negb (0 + PF_RET_int ret =? PF_RET_int PF_RET.SUCCESS)
                 then Done (float_of_int (PF_RET_int PF_RET.UPDATE_ERROR), p2)
                 else p3 ← (if LM_CLEANUP then cleanUpSightings p2 else Done p2);
                      Done (getParticleWeight p3, p3)).
  { unfold updateParticle. rewrite Hrobot.
    fold p1. destruct (matchLandmark z p) as [id' p1'] eqn:Hm.
    subst p1. simpl in *. by rewrite Hupd. }
  split.
  - intros Hfail. split; [by destruct ret; auto|].
    rewrite Hrun.
    destruct (0 + PF_RET_int ret =? PF_RET_int PF_RET.SUCCESS) eqn:Hcode;
      [|done].
    exfalso. apply Hfail, Hinj. lia.
  - intros ->. rewrite Z.add_0_l, Z.eqb_refl in Hrun. simpl in Hrun.
    split.
    + destruct LM_CLEANUP.
      * destruct (cleanUpSightings_Done p2 robot Hrobot2) as (bank' & Hclean).
        rewrite Hclean in Hrun. simpl in Hrun.
        eexists. rewrite Hrun. unfold getParticleWeight. simpl.
        by rewrite Hmax.
      * eexists. rewrite Hrun. simpl. unfold getParticleWeight.
        by rewrite Hmax.
    + pose proof (matchLandmark_loop_label z (m_lmekf_bank p) n 0
                    (m_importance_factor p)) as Hl.
      subst id p1. unfold matchLandmark. fold n.
      destruct (matchLandmark_loop z (m_lmekf_bank p) n 0 _) as [[bank' id] m].
      simpl in *. rewrite Z.sub_0_r in Hl.
      split.
      * intros Hlt. destruct Hl as [[-> _]|[_ Hl]]; [lia|done].
      * intros ->. destruct Hl as [[_ ->]|[Hr _]]; [done|lia].
Qed.

End ParticleFacts.

(** ** drawWithReplacement *)

Section DrawFacts.
Context {F : FloatOps}.

Lemma drawWithReplacement_negative (cdf_vec : list float) (sample : float) :
  flt sample (float_of_int 0) = true ->
  drawWithReplacement cdf_vec sample = Done (-1).
Proof. intros Hneg. unfold drawWithReplacement. by rewrite Hneg. Qed.

Lemma vec_at_back {A : Type} (v : list A) (a : A) :
  last v = Some a -> vec_at v (Z.of_nat (length v) - 1) = Done a.
Proof.
  intros Hlast. rewrite last_lookup in Hlast.
  destruct v as [|b v]; [done|].
  apply vec_at_lookup; [simpl; lia|].
  replace (Z.to_nat (Z.of_nat (length (b :: v)) - 1)) with (pred (length (b :: v)))
    by (simpl; lia).
  done.
Qed.

Lemma drawWithReplacement_above (cdf_vec : list float) (sample back : float) :
  last cdf_vec = Some back ->
  fgt sample back = true ->
  drawWithReplacement cdf_vec sample = Done (-1).
Proof.
  intros Hlast Hgt. unfold drawWithReplacement.
  destruct (flt sample (float_of_int 0)); [done|].
  rewrite (vec_at_back _ _ Hlast). simpl. by rewrite Hgt.
Qed.

(** On a CDF of one element the loop does not run, and a sample that passes
    the range test makes the function read [middle] uninitialised. *)
Lemma drawWithReplacement_singleton (c sample : float) :
  flt sample (float_of_int 0) = false ->
  fgt sample c = false ->
  drawWithReplacement [c] sample = Fault UninitialisedRead.
Proof.
  intros Hneg Hgt. unfold drawWithReplacement. rewrite Hneg. simpl.
  unfold vec_at. simpl. by rewrite Hgt.
Qed.

Lemma middle_between (start end_ : Z) :
  0 <= start < end_ ->
  start <= (start + end_) `quot` 2 < end_.
Proof.
  intros Hr. rewrite Z.quot_div_nonneg by lia.
  pose proof (Z.div_mod (start + end_) 2) as Hdm.
  pose proof (Z.mod_pos_bound (start + end_) 2) as Hmod. lia.
Qed.

(** The loop ends within the fuel that [drawWithReplacement] gives it, with
    [start = end], and [middle] then holds that index or the one before. *)
Lemma drawWithReplacement_loop_ends (fuel : nat) (cdf_vec : list float)
    (sample : float) (start end_ : Z) (middle : option Z) :
  0 <= start <= end_ ->
  end_ < Z.of_nat (length cdf_vec) ->
  (Z.to_nat (end_ - start) <= fuel)%nat ->
  exists j m,
    drawWithReplacement_loop fuel cdf_vec sample start end_ middle = inl (j, j, m) /\
    start <= j <= end_ /\
    ((start = end_ /\ m = middle) \/
     (start < end_ /\ (m = Some j \/ m = Some (j - 1)))).
Proof.
  revert start end_ middle.
  induction fuel as [|fuel IH]; intros start end_ middle Hr Hlen Hfuel.
  - assert (start = end_) as -> by lia. exists end_, middle.
    simpl. rewrite Z.eqb_refl. split; [done|]. split; [lia|]. by left.
  - simpl. destruct (start =? end_) eqn:Heq.
    { assert (start = end_) as -> by lia. exists end_, middle.
      split; [done|]. split; [lia|]. by left. }
    pose proof (middle_between start end_) as Hmid.
    set (mid := (start + end_) `quot` 2) in *.
    destruct (lookup_lt_is_Some_2 cdf_vec (Z.to_nat mid)) as [c Hc]; [lia|].
    rewrite (vec_at_lookup _ _ c) by (done || lia).
    destruct (fge sample c).
    + destruct (IH (mid + 1) end_ (Some mid)) as (j & m & Hrun & Hj & Hm);
        [lia|lia|lia|].
      exists j, m. split; [done|]. split; [lia|]. right. split; [lia|].
      destruct Hm as [[Hend ->]|[_ Hm]]; [|done].
      right. f_equal. lia.
    + destruct (IH start mid (Some mid)) as (j & m & Hrun & Hj & Hm);
        [lia|lia|lia|].
      exists j, m. split; [done|]. split; [lia|]. right. split; [lia|].
      destruct Hm as [[Hend ->]|[_ Hm]]; [|done].
      left. f_equal. lia.
Qed.

Section Interval.
Context {FO : FloatOrder}.

Lemma drawWithReplacement_loop_bounds (fuel : nat) (cdf_vec : list float)
    (sample : float) (start end_ : Z) (middle : option Z) (j j' : Z)
    (m : option Z) :
  is_number sample ->
  Forall is_number cdf_vec ->
  0 <= start <= end_ ->
  end_ < Z.of_nat (length cdf_vec) ->
  below_start cdf_vec sample start ->
  above_end cdf_vec sample end_ ->
  drawWithReplacement_loop fuel cdf_vec sample start end_ middle = inl (j, j', m) ->
  below_start cdf_vec sample j /\ above_end cdf_vec sample j.
Proof.
  intros Hs Hcdf. revert start end_ middle.
  induction fuel as [|fuel IH]; intros start end_ middle Hr Hlen Hlo Hhi Hrun;
    simpl in Hrun.
  - destruct (start =? end_) eqn:Heq; [|done].
    assert (start = end_) as -> by lia. by inversion Hrun; subst.
  - destruct (start =? end_) eqn:Heq.
    { assert (start = end_) as -> by lia. by inversion Hrun; subst. }
    pose proof (middle_between start end_) as Hmid.
    set (mid := (start + end_) `quot` 2) in *.
    destruct (lookup_lt_is_Some_2 cdf_vec (Z.to_nat mid)) as [c Hc]; [lia|].
    rewrite (vec_at_lookup _ _ c) in Hrun by (done || lia).
    assert (Hnum : is_number c) by (by eapply Forall_lookup_1 in Hc).
    unfold fge in Hrun. destruct (fle c sample) eqn:Hle.
    + eapply IH; [| |right|exact Hhi|exact Hrun]; [lia|lia|].
      exists c. replace (mid + 1 - 1) with mid by lia. done.
    + eapply IH; [| |exact Hlo|right|exact Hrun]; [lia|lia|].
      exists c. split; [done|].
      rewrite fle_not_gt in Hle by done. by apply negb_false_iff in Hle.
Qed.

(** X11. What the code returns on a CDF of two or more numbers for a sample
    in [0, cdf.back()): the loop ends on the index [j] whose interval holds
    the sample, and the function returns [j] or [j - 1], whichever [middle]
    was last. *)
Lemma drawWithReplacement_off_by_one (cdf_vec : list float) (sample back : float) :
  (2 <= length cdf_vec)%nat ->
  is_number sample -> is_number (float_of_int 0) ->
  Forall is_number cdf_vec ->
  flt sample (float_of_int 0) = false ->
  last cdf_vec = Some back ->
  flt sample back = true ->
  exists j : nat,
    cdf_interval cdf_vec sample j /\
    (drawWithReplacement cdf_vec sample = Done (Z.of_nat j) \/
     drawWithReplacement cdf_vec sample = Done (Z.of_nat j - 1)).
Proof.
  intros Hlen Hs H0 Hcdf Hneg Hlast Hlt.
  assert (Hback : is_number back).
  { rewrite last_lookup in Hlast. by eapply Forall_lookup_1 in Hlast. }
  unfold drawWithReplacement. rewrite Hneg, (vec_at_back _ _ Hlast). simpl.
  unfold fgt. rewrite (flt_asym sample back) by done.
  destruct (drawWithReplacement_loop_ends (length cdf_vec) cdf_vec sample 0
              (Z.of_nat (length cdf_vec) - 1) None)
    as (j & m & Hrun & Hj & Hm); [lia|lia|lia|].
  rewrite Hrun.
  destruct (drawWithReplacement_loop_bounds (length cdf_vec) cdf_vec sample 0
              (Z.of_nat (length cdf_vec) - 1) None j j m Hs Hcdf)
    as [Hlo Hhi]; [lia|lia|by left|by left|done|].
  exists (Z.to_nat j). split.
  - split.
    + destruct (Z.to_nat j) as [|i] eqn:Hi.
      * apply (f_equal negb) in Hneg. simpl in Hneg.
        by rewrite <- fle_not_gt in Hneg.
      * destruct Hlo as [->|(lo & Hlo & Hle)]; [done|].
        replace (Z.to_nat (j - 1)) with i in Hlo by lia. by rewrite Hlo.
    + destruct Hhi as [->|(hi & Hhi & Hgt)].
      * exists back. split; [|done]. rewrite last_lookup in Hlast.
        rewrite <- Hlast. f_equal. lia.
      * by exists hi.
  - rewrite Z2Nat.id by lia.
    destruct Hm as [[Hend _]|[_ [->| ->]]]; [lia|by left|by right].
Qed.

End Interval.

End DrawFacts.

(** ** FastSLAMPF *)

Section FilterFacts.
Context {F : FloatOps} {E : EigenOps} {R : RobotManagerOps} {K : LMEKFOps}
  {M : MathUtilOps} {C : HeaderConsts} {HP : HashPolicy}.

Implicit Types (pf : FastSLAMPF) (rng : RNG) (z : Observation2D)
  (set its aux_set : list (Z * FastSLAMParticles)) (weights : list float).

(** *** samplePose *)

Lemma samplePose_eq pf robot (a_pose_mean : Pose2D) rng :
  m_robot_pf pf = Some robot ->
  let d0 := sampleNormal (float_of_int 0) (float_of_int 1) rng in
  let d1 := sampleNormal (float_of_int 0) (float_of_int 1) d0.2 in
  let d2 := sampleNormal (float_of_int 0) (float_of_int 1) d1.2 in
  samplePose pf a_pose_mean rng =
  Done (Pose2D_add a_pose_mean
          (m3_mulv (samplePose_factor (getProcessNoise robot))
                   (v3_make d0.1 d1.1 d2.1)),
        d2.2).
Proof.
  intros Hrobot d0 d1 d2. unfold samplePose. rewrite Hrobot. simpl.
  subst d0 d1 d2.
  destruct (sampleNormal _ _ rng) as [z0 rng0]. simpl.
  destruct (sampleNormal _ _ rng0) as [z1 rng1]. simpl.
  by destruct (sampleNormal _ _ rng1) as [z2 rng2].
Qed.

(** C7, as the code has it.  When the Cholesky factorisation of the process
    noise fails, [samplePose] perturbs the mean with the factor
    eigenvectors * diag(sqrt(eigenvalues)), the square root being taken of
    the eigenvalues as the solver returns them; and with zero process noise,
    under the laws [EigenZeroLaws] of Eigen on the zero matrix, when the
    three normal draws are numbers and adding the zero vector leaves the
    pose unchanged, [samplePose] returns exactly the mean. *)
Theorem samplePose_fallback pf robot (a_pose_mean : Pose2D) rng :
  m_robot_pf pf = Some robot ->
  let noise := getProcessNoise robot in
  let d0 := sampleNormal (float_of_int 0) (float_of_int 1) rng in
  let d1 := sampleNormal (float_of_int 0) (float_of_int 1) d0.2 in
  let d2 := sampleNormal (float_of_int 0) (float_of_int 1) d1.2 in
  (LLT noise = None ->
   samplePose pf a_pose_mean rng =
   Done (Pose2D_add a_pose_mean
           (m3_mulv
              (m3_mul (eigenvectors noise)
                      (v3_asDiagonal (v3_cwiseSqrt (eigenvalues noise))))
              (v3_make d0.1 d1.1 d2.1)),
         d2.2)) /\
  (noise = m3_Zero ->
   EigenZeroLaws ->
   is_number d0.1 -> is_number d1.1 -> is_number d2.1 ->
   Pose2D_add a_pose_mean v3_Zero = a_pose_mean ->
   samplePose pf a_pose_mean rng = Done (a_pose_mean, d2.2)).
Proof.
  intros Hrobot noise d0 d1 d2. split.
  - intros Hllt. rewrite (samplePose_eq pf robot) by done.
    fold noise. unfold samplePose_factor. by rewrite Hllt.
  - intros Hzero Hlaws Hd0 Hd1 Hd2 Hadd. rewrite (samplePose_eq pf robot) by done.
    fold noise. rewrite Hzero.
    assert (Hfactor : samplePose_factor m3_Zero = m3_Zero).
    { unfold samplePose_factor. destruct (LLT m3_Zero) as [l|] eqn:Hllt.
      - by apply LLT_Zero.
      - apply eigen_Zero. }
    rewrite Hfactor, mulv_Zero by done. by rewrite Hadd.
Qed.

(** *** std::unordered_map *)

Lemma um_find_None {V : Type} (k : Z) (m : list (Z * V)) :
  um_find k m = None <-> k ∉ map fst m.
Proof.
  induction m as [|[k' v] m IH]; simpl.
  - split; [intros _; apply not_elem_of_nil|done].
  - rewrite not_elem_of_cons. destruct (k' =? k) eqn:Heq.
    + split; [done|]. intros [Hne _]. lia.
    + rewrite IH. split; [|tauto]. intros Hm. split; [lia|done].
Qed.

Lemma um_insert_fresh {V : Type} (kv : Z * V) (m : list (Z * V)) :
  kv.1 ∉ map fst m -> um_insert kv m ≡ₚ kv :: m.
Proof.
  intros Hfresh. unfold um_insert.
  apply um_find_None in Hfresh. rewrite Hfresh. apply um_link_perm.
Qed.

(** *** reSampleParticles *)

Lemma reSampleParticles_loop_spec set its cdf_table total_weight aux_set rng
    aux_set' rng' :
  reSampleParticles_loop set its cdf_table total_weight aux_set rng =
    Done (aux_set', rng') ->
  NoDup (map fst its ++ map fst aux_set) ->
  Forall bank_is_empty aux_set ->
  map fst aux_set' ≡ₚ map fst its ++ map fst aux_set /\
  Forall bank_is_empty aux_set'.
Proof.
  revert aux_set rng.
  induction its as [|[k particle] rest IH]; intros aux_set rng Hrun Hnodup Hempty;
    simpl in Hrun.
  { by inversion Hrun; subst. }
  destruct (sampleUniform _ total_weight rng) as [sampled_weight rng1].
  destruct (drawWithReplacement cdf_table sampled_weight) as [sampled_idx|];
    simpl in Hrun; [|done].
  destruct (um_at set _) as [drawn|]; simpl in Hrun; [|done].
  simpl in Hnodup. apply NoDup_cons in Hnodup as [Hfresh Hnodup].
  assert (Hins : um_insert (k, FastSLAMParticles_copy drawn) aux_set ≡ₚ
                 (k, FastSLAMParticles_copy drawn) :: aux_set).
  { apply um_insert_fresh. simpl. intros Hin. apply Hfresh.
    apply elem_of_app. by right. }
  apply IH in Hrun as [Hkeys Hbanks].
  - split; [|done]. rewrite Hkeys.
    rewrite (Permutation_map fst Hins). simpl.
    by rewrite <- Permutation_middle.
  - rewrite (Permutation_map fst Hins). simpl.
    rewrite <- Permutation_middle. by apply NoDup_cons.
  - rewrite Hins. by apply Forall_cons.
Qed.

(** What resampling does whenever it completes: the weights are as before,
    the keys of the particle set are as before, and every particle it
    installs comes out of the copy constructor with an empty bank. *)
Lemma reSampleParticles_effect pf rng pf' rng' :
  reSampleParticles pf rng = Done (pf', rng') ->
  NoDup (map fst (m_particle_set pf)) ->
  m_particle_weights pf' = m_particle_weights pf /\
  map fst (m_particle_set pf') ≡ₚ map fst (m_particle_set pf) /\
  Forall bank_is_empty (m_particle_set pf').
Proof.
  unfold reSampleParticles. intros Hrun Hnodup.
  destruct (genCDF (m_particle_weights pf)) as [total_weight cdf_table].
  destruct (reSampleParticles_loop _ _ _ _ _ _) as [[aux_set rng1]|] eqn:Hloop;
    simpl in Hrun; [|done].
  inversion Hrun; subst. simpl.
  apply reSampleParticles_loop_spec in Hloop as [Hkeys Hbanks].
  - split; [done|]. split; [|done]. by rewrite Hkeys, app_nil_r.
  - by rewrite app_nil_r.
  - constructor.
Qed.

(** *** updateFilter *)

(** One pass over the particle set.  The node visited [k]-th receives the
    observation at the front of the queue with a pose sampled for it, and
    the weight it returns is added to the entry [idx + k] of the weights;
    the other entries, the length of the weights and the keys of the set
    are unchanged.  The entry is chosen by the position of the node in the
    iteration, not by its key. *)
Lemma updateFilter_particles_spec LM_CLEANUP pf (a_robot_pose_mean : Pose2D)
    (front : Observation2D) its (idx : Z) weights rng its' weights' rng' :
  0 <= idx ->
  updateFilter_particles LM_CLEANUP pf a_robot_pose_mean front its idx weights rng
    = Done (its', weights', rng') ->
  length weights' = length weights /\
  map fst its' = map fst its /\
  (forall j, (j < Z.to_nat idx \/ Z.to_nat idx + length its <= j)%nat ->
     weights' !! j = weights !! j) /\
  (forall k it, its !! k = Some it ->
     exists rng1 pose rng2 w particle old,
       samplePose pf a_robot_pose_mean rng1 = Done (pose, rng2) /\
       updateParticle_at LM_CLEANUP front pose it.2 = Done (w, particle) /\
       its' !! k = Some (it.1, particle) /\
       weights !! (Z.to_nat idx + k)%nat = Some old /\
       weights' !! (Z.to_nat idx + k)%nat = Some (fadd old w)).
Proof.
  revert idx weights rng its' weights' rng'.
  induction its as [|it0 rest IH]; intros idx weights rng its' weights' rng' Hidx Hrun;
    simpl in Hrun.
  { inversion Hrun; subst.
    repeat split; done || (intros k it Hk; by destruct k). }
  destruct (samplePose pf a_robot_pose_mean rng) as [[pose rng1]|] eqn:Hpose;
    simpl in Hrun; [|done].
  destruct (updateParticle_at LM_CLEANUP front pose it0.2) as [[w particle]|] eqn:Hupd;
    simpl in Hrun; [|done].
  destruct (vec_at weights idx) as [old|] eqn:Hold; simpl in Hrun; [|done].
  apply vec_at_Done in Hold as [_ Hold].
  destruct (updateFilter_particles _ _ _ _ rest _ _ _) as [[[rest' weights1] rng2]|]
    eqn:Hrest; simpl in Hrun; [|done].
  inversion Hrun; subst. clear Hrun.
  apply IH in Hrest as (Hlen & Hkeys & Hframe & Hslots); [|lia].
  rewrite length_insert in Hlen.
  replace (Z.to_nat (idx + 1)) with (S (Z.to_nat idx)) in * by lia.
  split; [done|]. split; [by simpl; rewrite Hkeys|]. split.
  - intros j Hj. simpl in Hj. rewrite Hframe by lia.
    apply list_lookup_insert_ne. lia.
  - intros [|k] it Hk; simpl in Hk.
    + inversion Hk; subst. exists rng, pose, rng1, w, particle, old.
      rewrite Nat.add_0_r. repeat split; try done.
      rewrite Hframe by lia. apply list_lookup_insert_eq.
      by eapply lookup_lt_Some.
    + destruct (Hslots k it Hk)
        as (rngk & posek & rngk' & wk & particlek & oldk & Hp & Hu & Hi & Ho & Hn).
      exists rngk, posek, rngk', wk, particlek, oldk.
      replace (Z.to_nat idx + S k)%nat with (S (Z.to_nat idx) + k)%nat by lia.
      repeat split; try done.
      rewrite list_lookup_insert_ne in Ho by lia. done.
Qed.

(** The queue is drained front to back, one pass per observation, and
    resampling runs once, on the state the drained queue leaves. *)
Lemma updateFilter_drain_cons LM_CLEANUP pf (a_robot_pose_mean : Pose2D)
    (front : Observation2D) (popped : list Observation2D) rng :
  updateFilter_drain LM_CLEANUP pf a_robot_pose_mean (front :: popped) rng =
  r ← updateFilter_particles LM_CLEANUP pf a_robot_pose_mean front
         (m_particle_set pf) 0 (m_particle_weights pf) rng;
  updateFilter_drain LM_CLEANUP (set_particles r.1.1 r.1.2 pf)
    a_robot_pose_mean popped r.2.
Proof.
  simpl. destruct (updateFilter_particles _ _ _ _ _ _ _ _) as [[[set weights] rng1]|];
    done.
Qed.

Lemma updateFilter_eq LM_CLEANUP pf (a_robot_pose_mean : Pose2D)
    (queue : list Observation2D) rng :
  updateFilter LM_CLEANUP pf a_robot_pose_mean queue rng =
  d ← updateFilter_drain LM_CLEANUP pf a_robot_pose_mean queue rng;
  r ← reSampleParticles d.1.1 d.2;
  Done (r.1, d.1.2, r.2).
Proof.
  unfold updateFilter.
  destruct (updateFilter_drain _ _ _ _ _) as [[[pf1 q1] rng1]|]; [|done].
  simpl. by destruct (reSampleParticles pf1 rng1) as [[pf2 rng2]|].
Qed.

Lemma updateFilter_drain_keys LM_CLEANUP pf (a_robot_pose_mean : Pose2D)
    (queue : list Observation2D) rng pf' queue' rng' :
  updateFilter_drain LM_CLEANUP pf a_robot_pose_mean queue rng =
    Done (pf', queue', rng') ->
  queue' = [] /\
  map fst (m_particle_set pf') = map fst (m_particle_set pf) /\
  length (m_particle_weights pf') = length (m_particle_weights pf).
Proof.
  revert pf rng. induction queue as [|front popped IH]; intros pf rng Hrun.
  { by inversion Hrun; subst. }
  rewrite updateFilter_drain_cons in Hrun.
  destruct (updateFilter_particles _ _ _ _ _ _ _ _) as [[[set weights] rng1]|]
    eqn:Hpass; simpl in Hrun; [|done].
  apply updateFilter_particles_spec in Hpass as (Hlen & Hkeys & _); [|lia].
  apply IH in Hrun as (-> & Hkeys' & Hlen'). simpl in *.
  split; [done|]. split; congruence.
Qed.

(** X18. Whatever the queue held, a completed [updateFilter] leaves the
    queue empty, the keys of the particle set and the number of weights as
    they were, and every particle with an empty bank: the copies that
    resampling installs carry no landmark. *)
Lemma updateFilter_effect LM_CLEANUP pf (a_robot_pose_mean : Pose2D)
    (queue : list Observation2D) rng pf' queue' rng' :
  NoDup (map fst (m_particle_set pf)) ->
  updateFilter LM_CLEANUP pf a_robot_pose_mean queue rng =
    Done (pf', queue', rng') ->
  queue' = [] /\
  map fst (m_particle_set pf') ≡ₚ map fst (m_particle_set pf) /\
  length (m_particle_weights pf') = length (m_particle_weights pf) /\
  Forall bank_is_empty (m_particle_set pf').
Proof.
  intros Hnodup Hrun. rewrite updateFilter_eq in Hrun.
  destruct (updateFilter_drain _ _ _ _ _) as [[[pf1 q1] rng1]|] eqn:Hdrain;
    simpl in Hrun; [|done].
  destruct (reSampleParticles pf1 rng1) as [[pf2 rng2]|] eqn:Hres;
    simpl in Hrun; [|done].
  inversion Hrun; subst. clear Hrun.
  apply updateFilter_drain_keys in Hdrain as (-> & Hkeys & Hlen).
  apply reSampleParticles_effect in Hres as (Hw & Hkeys' & Hbanks);
    [|by rewrite Hkeys].
  split; [done|]. split; [by rewrite Hkeys', Hkeys|].
  split; [by rewrite Hw|done].
Qed.

End FilterFacts.

(** ** Further properties of FastSLAMParticles *)

Section ParticleCoverage.
Context {F : FloatOps} {E : EigenOps} {R : RobotManagerOps} {K : LMEKFOps}
  {M : MathUtilOps} {C : HeaderConsts}.

Implicit Types (p part : FastSLAMParticles) (z : Observation2D)
  (bank : list (LMEKF2D * Z)).

(** X1. The copy constructor returns a particle equal to its source exactly
    when the bank of the source is empty; copying a copy changes nothing
    more. *)
Theorem FastSLAMParticles_copy_faithful_iff part :
  (FastSLAMParticles_copy part = part <-> m_lmekf_bank part = []) /\
  FastSLAMParticles_copy (FastSLAMParticles_copy part) =
    FastSLAMParticles_copy part.
Proof.
  split; [|done]. split.
  - intros Heq. rewrite <- Heq. apply FastSLAMParticles_copy_bank.
  - intros Hbank. rewrite FastSLAMParticles_copy_eq, <- Hbank.
    apply set_bank_id.
Qed.

Lemma observed_length z bank : length (observed z bank) = length bank.
Proof. apply length_map. Qed.

Lemma observed_counters z bank : map snd (observed z bank) = map snd bank.
Proof. unfold observed. rewrite map_map. by apply map_ext. Qed.

(** X2. Whatever the densities are, NaN included, [matchLandmark] leaves
    its return value in [m_data_label], between 0 and the size of the bank;
    it buffers the observation in every EKF and changes nothing else of the
    bank: the length and the counters are as before, and so are the
    importance factor, the pose and the robot handle.  [m_curr_max_wn] is
    [w0] when the label is the size of the bank and the density of the
    labelled EKF otherwise. *)
Theorem matchLandmark_label_invariant z p :
  let n := Z.of_nat (length (m_lmekf_bank p)) in
  let id := (matchLandmark z p).1 in
  let p' := (matchLandmark z p).2 in
  0 <= id <= n /\
  m_data_label p' = id /\
  m_lmekf_bank p' = observed z (m_lmekf_bank p) /\
  length (m_lmekf_bank p') = length (m_lmekf_bank p) /\
  map snd (m_lmekf_bank p') = map snd (m_lmekf_bank p) /\
  m_importance_factor p' = m_importance_factor p /\
  m_robot_pose p' = m_robot_pose p /\
  m_robot p' = m_robot p /\
  (id = n -> m_curr_max_wn p' = m_importance_factor p) /\
  (id < n ->
   cpds z (m_lmekf_bank p) !! Z.to_nat id = Some (m_curr_max_wn p')).
Proof.
  intros n id p'.
  pose proof (matchLandmark_loop_label z (m_lmekf_bank p) n 0
                (m_importance_factor p)) as Hl.
  pose proof (matchLandmark_loop_bank z (m_lmekf_bank p) n 0
                (m_importance_factor p)) as Hb.
  subst id p'. unfold matchLandmark. fold n.
  destruct (matchLandmark_loop z (m_lmekf_bank p) n 0 _) as [[bank' id] m].
  simpl in *. subst bank'. rewrite Z.sub_0_r in Hl.
  split; [destruct Hl as [[-> _]|[Hr _]]; lia|].
  split; [done|]. split; [done|].
  split; [apply observed_length|]. split; [apply observed_counters|].
  split; [done|]. split; [done|]. split; [done|]. split.
  - intros ->. destruct Hl as [[_ ->]|[Hr _]]; [done|lia].
  - intros Hlt. destruct Hl as [[-> _]|[_ Hl]]; [lia|done].
Qed.

(** X3. When the label indexes an EKF whose Kalman update reports an error,
    [updateLMBelief] returns the error of the same name and does not touch
    the counter: the pair keeps its counter with the EKF as the failed
    update left it, and the bank keeps its length and its other pairs.
    Without a robot manager the function returns EMPTY_ROBOT_MANAGER and
    the particle is unchanged. *)
Theorem updateLMBelief_failed_update z p :
  (m_robot p = None ->
   updateLMBelief z p = Done (PF_RET.EMPTY_ROBOT_MANAGER, p)) /\
  (forall robot ekf count status ekf',
   m_robot p = Some robot ->
   0 <= m_data_label p ->
   m_lmekf_bank p !! Z.to_nat (m_data_label p) = Some (ekf, count) ->
   update (updateObservation z ekf) = (status, ekf') ->
   status <> KF_RET.SUCCESS ->
   exists bank',
     updateLMBelief z p = Done (PF_RET_of_KF status, set_bank bank' p) /\
     PF_RET_of_KF status <> PF_RET.SUCCESS /\
     length bank' = length (m_lmekf_bank p) /\
     bank' !! Z.to_nat (m_data_label p) = Some (ekf', count) /\
     forall j, j <> Z.to_nat (m_data_label p) ->
       bank' !! j = m_lmekf_bank p !! j).
Proof.
  split.
  { intros Hnull. unfold updateLMBelief. by rewrite Hnull. }
  intros robot ekf count status ekf' Hrobot Hpos Hentry Hupd Hfail.
  exists (<[Z.to_nat (m_data_label p) := (ekf', count)]> (m_lmekf_bank p)).
  assert (Hlt : (Z.to_nat (m_data_label p) < length (m_lmekf_bank p))%nat)
    by (by eapply lookup_lt_Some).
  split; [|split; [by destruct status|split; [|split]]].
  - unfold updateLMBelief. rewrite Hrobot.
    destruct (m_data_label p =? _) eqn:Heq; [lia|].
    rewrite (vec_at_lookup _ _ _ Hpos Hentry). simpl. rewrite Hupd.
    by destruct status.
  - by rewrite length_insert.
  - by rewrite list_lookup_insert_eq.
  - intros j Hj. by rewrite list_lookup_insert_ne.
Qed.

(** X4. With a robot manager, a label that is neither the size of the bank
    nor the index of one of its pairs (negative, or past the size) makes
    [updateLMBelief] index the bank out of bounds. *)
Theorem updateLMBelief_label_out_of_bounds z p robot :
  m_robot p = Some robot ->
  m_data_label p < 0 \/ Z.of_nat (length (m_lmekf_bank p)) < m_data_label p ->
  updateLMBelief z p = Fault OutOfBounds.
Proof.
  intros Hrobot Hout. unfold updateLMBelief. rewrite Hrobot.
  destruct (m_data_label p =? _) eqn:Heq; [lia|].
  unfold vec_at. destruct (m_data_label p <? 0) eqn:Hneg; [done|].
  rewrite lookup_ge_None_2; [done|lia].
Qed.

(** Whatever [updateLMBelief] returns, it only writes the bank, which keeps
    its length or grows by one pair. *)
Lemma updateLMBelief_frame z p ret p2 :
  updateLMBelief z p = Done (ret, p2) ->
  exists bank2,
    p2 = set_bank bank2 p /\
    (length (m_lmekf_bank p) <= length bank2 <= S (length (m_lmekf_bank p)))%nat.
Proof.
  unfold updateLMBelief. destruct (m_robot p) as [robot|].
  - destruct (m_data_label p =? _).
    + intros [= <- <-]. eexists. split; [done|].
      rewrite length_app. simpl. lia.
    + destruct (vec_at _ _) as [entry|]; simpl; [|done].
      destruct (update _) as [status ekf'].
      destruct status; intros [= <- <-]; eexists; (split; [done|]);
        rewrite length_insert; lia.
  - intros [= <- <-]. exists (m_lmekf_bank p).
    split; [by rewrite set_bank_id|lia].
Qed.

Lemma cleanUpSightings_closed_form p robot :
  m_robot p = Some robot ->
  cleanUpSightings p =
  Done (set_bank
          (match m_lmekf_bank p with
           | it :: rest =>
               if 0 =? m_data_label p
               then it :: map (sighting_missed robot (m_robot_pose p)) rest
               else map (sighting_missed robot (m_robot_pose p)) (m_lmekf_bank p)
           | [] => []
           end) p).
Proof.
  intros Hrobot. unfold cleanUpSightings.
  by rewrite Hrobot, cleanUpSightings_loop_eq.
Qed.

Lemma cleanUpSightings_keeps_length p robot :
  m_robot p = Some robot ->
  exists bank',
    cleanUpSightings p = Done (set_bank bank' p) /\
    length bank' = length (m_lmekf_bank p).
Proof.
  intros Hrobot. rewrite (cleanUpSightings_closed_form p robot Hrobot).
  eexists. split; [done|].
  destruct (m_lmekf_bank p) as [|it rest]; [done|].
  destruct (0 =? m_data_label p); simpl; by rewrite length_map.
Qed.

(** X5. [cleanUpSightings] with a robot manager, in closed form.  When the
    label is 0 the first pair is skipped and every other pair is visited;
    when the label is not 0 the counter [i] never reaches it and every
    pair is visited, the labelled one too.  A visited pair loses one from
    its counter when its mean is within the perceptual range. *)
Theorem cleanUpSightings_skips_only_label_zero p robot :
  m_robot p = Some robot ->
  (m_data_label p <> 0 ->
   cleanUpSightings p =
   Done (set_bank (map (sighting_missed robot (m_robot_pose p)) (m_lmekf_bank p)) p)) /\
  (m_data_label p = 0 ->
   cleanUpSightings p =
   Done (set_bank (take 1 (m_lmekf_bank p) ++
                   map (sighting_missed robot (m_robot_pose p))
                       (drop 1 (m_lmekf_bank p))) p)).
Proof.
  intros Hrobot. rewrite (cleanUpSightings_closed_form p robot Hrobot).
  split; intros Hlabel.
  - destruct (m_lmekf_bank p) as [|it rest]; [done|].
    destruct (0 =? m_data_label p) eqn:Heq; [lia|done].
  - destruct (m_lmekf_bank p) as [|it rest]; [done|].
    rewrite Hlabel. simpl. by rewrite drop_0.
Qed.

(** X6. With a robot manager [updateParticle] always completes, with or
    without the cleanup.  It leaves the importance factor, the pose and the
    robot handle as they were and the label that [matchLandmark] returned,
    and the bank never shrinks: it keeps its length or gains one pair. *)
Theorem updateParticle_completes LM_CLEANUP z p robot :
  m_robot p = Some robot ->
  exists w p',
    updateParticle LM_CLEANUP z p = Done (w, p') /\
    m_importance_factor p' = m_importance_factor p /\
    m_robot_pose p' = m_robot_pose p /\
    m_robot p' = m_robot p /\
    m_data_label p' = (matchLandmark z p).1 /\
    (length (m_lmekf_bank p) <= length (m_lmekf_bank p')
       <= S (length (m_lmekf_bank p)))%nat.
Proof.
  intros Hrobot.
  destruct (updateLMBelief_after_match z p robot Hrobot)
    as (ret & p2 & Hupd & _ & _ & Hlabel & Hrobot2).
  destruct (updateLMBelief_frame _ _ _ _ Hupd) as (bank2 & Hp2 & Hlen).
  pose proof (matchLandmark_loop_bank z (m_lmekf_bank p)
                (Z.of_nat (length (m_lmekf_bank p))) 0 (m_importance_factor p)) as Hb.
  assert (Hrun : updateParticle LM_CLEANUP z p =
                 if negb (0 + PF_RET_int ret =? PF_RET_int PF_RET.SUCCESS)
                 then Done (float_of_int (PF_RET_int PF_RET.UPDATE_ERROR), p2)
                 else p3 ← (if LM_CLEANUP then cleanUpSightings p2 else Done p2);
                      Done (getParticleWeight p3, p3)).
  { unfold updateParticle. rewrite Hrobot.
    destruct (matchLandmark z p) as [id' p1'] eqn:Hm. simpl in *.
    by rewrite Hupd. }
  assert (Hfacts : m_importance_factor p2 = m_importance_factor p /\
                   m_robot_pose p2 = m_robot_pose p /\
                   m_robot p2 = m_robot p /\
                   (length (m_lmekf_bank p) <= length (m_lmekf_bank p2)
                      <= S (length (m_lmekf_bank p)))%nat).
  { subst p2. unfold matchLandmark in *.
    destruct (matchLandmark_loop z (m_lmekf_bank p) _ 0 _) as [[bank' id] m].
    simpl in *. subst bank'. rewrite observed_length in Hlen. done. }
  destruct Hfacts as (Hw0 & Hpose & Hrob & Hbank).
  rewrite Hrun.
  destruct (negb _); [by eexists _, _|].
  destruct LM_CLEANUP; [|by eexists _, _].
  destruct (cleanUpSightings_keeps_length p2 robot Hrobot2)
    as (bank3 & Hclean & Hlen3).
  rewrite Hclean. simpl. eexists _, _. split; [done|]. simpl.
  split; [done|]. split; [done|]. split; [done|]. split; [done|]. lia.
Qed.

(** X7. The first observation of a particle with an empty bank and a robot
    manager: the label is 0, "new landmark"; exactly one EKF is created,
    from [inverseMeas] of the pose and the observation, with the counter 1;
    the weight returned is the importance factor.  The cleanup, when
    compiled in, skips that one pair. *)
Theorem updateParticle_first_observation LM_CLEANUP z p robot :
  m_robot p = Some robot ->
  m_lmekf_bank p = [] ->
  let mu := inverseMeas robot (m_robot_pose p) z in
  let H := measJacobian robot mu in
  let cov :=
    if feq (m2_determinant H) (float_of_int 0) then m2_Identity
    else m2_mul (m2_mul (m2_inverse H) (getMeasNoise robot))
                (m2_transpose (m2_inverse H)) in
  updateParticle LM_CLEANUP z p =
  Done (m_importance_factor p,
        {| m_importance_factor := m_importance_factor p;
           m_robot_pose := m_robot_pose p;
           m_lmekf_bank := [(LMEKF2D_new mu cov (Some robot), 1)];
           m_data_label := 0;
           m_robot := Some robot;
           m_curr_max_wn := m_importance_factor p |}).
Proof.
  intros Hrobot Hbank mu H cov.
  unfold updateParticle, matchLandmark, updateLMBelief.
  rewrite Hrobot, Hbank. simpl.
  rewrite Z.eqb_refl. simpl.
  destruct LM_CLEANUP; [|done].
  unfold cleanUpSightings. by simpl.
Qed.

Lemma getLandmarkCoordinates_acc (acc : list Point2D) bank :
  foldl (fun landmarks ekf => landmarks ++ [getLMEst (fst ekf)]) acc bank =
  acc ++ map (fun ekf => getLMEst (fst ekf)) bank.
Proof.
  revert acc. induction bank as [|ekf bank IH]; intros acc; simpl.
  - by rewrite app_nil_r.
  - by rewrite IH, <- app_assoc.
Qed.

(** X8. [getLandmarkCoordinates] returns the current mean of every EKF of
    the bank, one point per pair and in bank order; an empty bank gives an
    empty vector. *)
Theorem getLandmarkCoordinates_means p :
  getLandmarkCoordinates p = map (fun ekf => getLMEst (fst ekf)) (m_lmekf_bank p) /\
  length (getLandmarkCoordinates p) = length (m_lmekf_bank p) /\
  forall k ekf count,
    m_lmekf_bank p !! k = Some (ekf, count) ->
    getLandmarkCoordinates p !! k = Some (getLMEst ekf).
Proof.
  assert (Heq : getLandmarkCoordinates p =
                map (fun ekf => getLMEst (fst ekf)) (m_lmekf_bank p)).
  { unfold getLandmarkCoordinates. by rewrite getLandmarkCoordinates_acc. }
  split; [done|]. rewrite Heq. split; [apply length_map|].
  intros k ekf count Hk. by rewrite list_lookup_fmap, Hk.
Qed.

End ParticleCoverage.

(** ** Further properties of drawWithReplacement *)

Section DrawCoverage.
Context {F : FloatOps}.

(** Whenever the loop ends, [middle] is as it was on entry if the loop did
    not run, and otherwise an index from [start] up to, not including,
    [end]. *)
Lemma drawWithReplacement_loop_middle (fuel : nat) (cdf_vec : list float)
    (sample : float) (start end_ : Z) (middle : option Z) (j j' : Z)
    (m : option Z) :
  drawWithReplacement_loop fuel cdf_vec sample start end_ middle = inl (j, j', m) ->
  0 <= start <= end_ ->
  (start = end_ /\ m = middle) \/ (exists v, m = Some v /\ start <= v < end_).
Proof.
  revert start end_ middle.
  induction fuel as [|fuel IH]; intros start end_ middle Hrun Hr; simpl in Hrun.
  - destruct (start =? end_) eqn:Heq; [|done].
    inversion Hrun; subst. left. split; [lia|done].
  - destruct (start =? end_) eqn:Heq.
    { inversion Hrun; subst. left. split; [lia|done]. }
    pose proof (middle_between start end_) as Hmid.
    set (mid := (start + end_) `quot` 2) in *.
    destruct (vec_at cdf_vec mid) as [c|]; [|done].
    destruct (fge sample c); apply IH in Hrun; try lia;
      (destruct Hrun as [[_ ->]|(v & -> & Hv)]; right; eexists;
       (split; [done|lia])).
Qed.

Lemma drawWithReplacement_range (cdf_vec : list float) (sample back : float) :
  (2 <= length cdf_vec)%nat ->
  last cdf_vec = Some back ->
  exists r,
    drawWithReplacement cdf_vec sample = Done r /\
    -1 <= r <= Z.of_nat (length cdf_vec) - 2 /\
    (r = -1 <-> flt sample (float_of_int 0) = true \/ fgt sample back = true).
Proof.
  intros Hlen Hlast. unfold drawWithReplacement.
  destruct (flt sample (float_of_int 0)) eqn:Hneg.
  { exists (-1). split; [done|]. split; [lia|]. split; [by left|done]. }
  rewrite (vec_at_back _ _ Hlast). simpl.
  destruct (fgt sample back) eqn:Hgt.
  { exists (-1). split; [done|]. split; [lia|]. split; [by right|done]. }
  destruct (drawWithReplacement_loop_ends (length cdf_vec) cdf_vec sample 0
              (Z.of_nat (length cdf_vec) - 1) None)
    as (j & m & Hrun & Hj & Hm); [lia|lia|lia|].
  rewrite Hrun.
  destruct (drawWithReplacement_loop_middle _ _ _ _ _ _ _ _ _ Hrun)
    as [[Heq _]|(v & -> & Hv)]; [lia|lia|].
  exists v. split; [done|]. split; [lia|].
  split; [lia|]. intros [?|?]; done.
Qed.

(** X9. On a CDF of two or more entries [drawWithReplacement] always
    returns: -1 exactly when the sample compares below 0 or above the last
    entry, and otherwise an index between 0 and size - 2.  The last index,
    size - 1, is never returned. *)
Theorem drawWithReplacement_never_last (cdf_vec : list float)
    (sample back : float) :
  (2 <= length cdf_vec)%nat ->
  last cdf_vec = Some back ->
  exists r,
    drawWithReplacement cdf_vec sample = Done r /\
    r <> Z.of_nat (length cdf_vec) - 1 /\
    (flt sample (float_of_int 0) = true \/ fgt sample back = true -> r = -1) /\
    (flt sample (float_of_int 0) = false -> fgt sample back = false ->
     0 <= r <= Z.of_nat (length cdf_vec) - 2).
Proof.
  intros Hlen Hlast.
  destruct (drawWithReplacement_range cdf_vec sample back Hlen Hlast)
    as (r & Hrun & Hr & Hiff).
  exists r. split; [done|]. split; [lia|]. split; [by apply Hiff|].
  intros Hneg Hgt.
  assert (r <> -1); [|lia].
  intros Hm. apply Hiff in Hm as [Hm|Hm]; congruence.
Qed.

(** X10. [drawWithReplacement] returns -1 for a sample that compares below
    0, whatever the CDF holds, an empty one included; and for a sample that
    compares above the last entry of a non-empty CDF. *)
Theorem drawWithReplacement_out_of_range (cdf_vec : list float)
    (sample : float) :
  (flt sample (float_of_int 0) = true ->
   drawWithReplacement cdf_vec sample = Done (-1)) /\
  (forall back, last cdf_vec = Some back -> fgt sample back = true ->
   drawWithReplacement cdf_vec sample = Done (-1)).
Proof.
  split.
  - apply drawWithReplacement_negative.
  - intros back. apply drawWithReplacement_above.
Qed.

(** X12. A sample that does not compare below 0 makes [drawWithReplacement]
    read [cdf_vec[-1]] on an empty CDF; on a CDF of one entry that the
    sample does not exceed, the loop body never runs and the function
    returns [middle] without ever having assigned it. *)
Theorem drawWithReplacement_short_cdf (sample : float) :
  flt sample (float_of_int 0) = false ->
  drawWithReplacement [] sample = Fault OutOfBounds /\
  (forall c, fgt sample c = false ->
   drawWithReplacement [c] sample = Fault UninitialisedRead).
Proof.
  intros Hneg. split.
  - unfold drawWithReplacement. by rewrite Hneg.
  - intros c Hgt. by apply drawWithReplacement_singleton.
Qed.

End DrawCoverage.

(** ** Further properties of FastSLAMPF *)

Section FilterCoverage.
Context {F : FloatOps} {E : EigenOps} {R : RobotManagerOps} {K : LMEKFOps}
  {M : MathUtilOps} {C : HeaderConsts} {HP : HashPolicy}.

Implicit Types (pf : FastSLAMPF) (rng : RNG) (z : Observation2D)
  (set its aux_set : list (Z * FastSLAMParticles)) (weights : list float).

Lemma um_find_Some_elem {V : Type} (k : Z) (m : list (Z * V)) (v : V) :
  um_find k m = Some v -> (k, v) ∈ m.
Proof.
  induction m as [|[k' v'] m IH]; simpl; [done|].
  destruct (k' =? k) eqn:Heq.
  - intros [= ->]. assert (k' = k) as -> by lia. apply list_elem_of_here.
  - intros Hm. apply list_elem_of_further. by apply IH.
Qed.

Lemma um_find_is_Some {V : Type} (k : Z) (m : list (Z * V)) :
  k ∈ map fst m -> is_Some (um_find k m).
Proof.
  intros Hin. destruct (um_find k m) eqn:Hfind; [by eexists|].
  by apply um_find_None in Hfind.
Qed.

Lemma um_insert_Forall {V : Type} (P : Z * V -> Prop) (kv : Z * V)
    (m : list (Z * V)) :
  P kv -> Forall P m -> Forall P (um_insert kv m).
Proof.
  intros Hkv Hm. unfold um_insert. destruct (um_find kv.1 m); [done|].
  rewrite (um_link_perm V kv m). by constructor.
Qed.

Lemma um_at_elem {V : Type} (m : list (Z * V)) (k : Z) (v : V) :
  um_at m k = Done v -> v ∈ map snd m.
Proof.
  unfold um_at. destruct (um_find k m) as [v'|] eqn:Hfind; [|done].
  intros [= ->]. apply um_find_Some_elem in Hfind.
  by apply (list_elem_of_fmap_2 snd) in Hfind.
Qed.

(** *** The constructor *)

Lemma FastSLAMPF_new_loop_inv (todo k : nat) pf (starting_pose : Pose2D)
    (lm_importance_factor : float) :
  map fst (m_particle_set pf) ≡ₚ seqZ 0 (Z.of_nat k) ->
  Forall (fun kv =>
            kv.2 = FastSLAMParticles_new lm_importance_factor starting_pose
                     (m_robot_pf pf)) (m_particle_set pf) ->
  m_particle_weights pf =
    replicate k (fdiv (float_of_int 1) (float_of_int (m_num_particles pf))) ->
  let pf' := FastSLAMPF_new_loop todo (Z.of_nat k) pf starting_pose
               lm_importance_factor in
  m_robot_pf pf' = m_robot_pf pf /\
  m_num_particles pf' = m_num_particles pf /\
  map fst (m_particle_set pf') ≡ₚ seqZ 0 (Z.of_nat (k + todo)) /\
  Forall (fun kv =>
            kv.2 = FastSLAMParticles_new lm_importance_factor starting_pose
                     (m_robot_pf pf)) (m_particle_set pf') /\
  m_particle_weights pf' =
    replicate (k + todo)
      (fdiv (float_of_int 1) (float_of_int (m_num_particles pf))).
Proof.
  revert k pf. induction todo as [|todo IH]; intros k pf Hkeys Hfresh Hw; simpl.
  { rewrite Nat.add_0_r. done. }
  set (new_particle := FastSLAMParticles_new lm_importance_factor starting_pose
                         (m_robot_pf pf)).
  set (pf1 := set_particles _ _ pf).
  assert (Hins : um_insert (Z.of_nat k, new_particle) (m_particle_set pf) ≡ₚ
                 (Z.of_nat k, new_particle) :: m_particle_set pf).
  { apply um_insert_fresh. simpl. rewrite Hkeys, elem_of_seqZ. lia. }
  replace (Z.of_nat k + 1) with (Z.of_nat (S k)) by lia.
  replace (k + S todo)%nat with (S k + todo)%nat by lia.
  apply (IH (S k) pf1).
  - simpl. rewrite (Permutation_map fst Hins). simpl.
    rewrite Hkeys, seqZ_S. simpl. by rewrite <- Permutation_cons_append.
  - simpl. rewrite Hins. by constructor.
  - subst pf1. cbn [m_particle_weights set_particles m_num_particles].
    rewrite Hw. symmetry. apply replicate_S_end.
Qed.

Lemma FastSLAMPF_new_inv (rob_ptr : option RobotManager2D)
    (num_particles : Z) (starting_pose : Pose2D) (lm_importance_factor : float) :
  let pf := FastSLAMPF_new rob_ptr num_particles starting_pose
              lm_importance_factor in
  m_robot_pf pf = rob_ptr /\
  m_num_particles pf = num_particles /\
  map fst (m_particle_set pf) ≡ₚ seqZ 0 num_particles /\
  Forall (fun kv =>
            kv.2 = FastSLAMParticles_new lm_importance_factor starting_pose rob_ptr)
         (m_particle_set pf) /\
  m_particle_weights pf =
    replicate (Z.to_nat num_particles)
      (fdiv (float_of_int 1) (float_of_int num_particles)).
Proof.
  intros pf. subst pf. unfold FastSLAMPF_new.
  edestruct (FastSLAMPF_new_loop_inv (Z.to_nat num_particles) 0
               {| m_robot_pf := rob_ptr; m_num_particles := num_particles;
                  m_particle_set := []; m_particle_weights := [] |}
               starting_pose lm_importance_factor)
    as (Hrob & Hnum & Hkeys & Hfresh & Hw); [done|constructor|done|].
  simpl in *.
  assert (Hseq : seqZ 0 (Z.of_nat (Z.to_nat num_particles)) = seqZ 0 num_particles).
  { unfold seqZ. by rewrite Nat2Z.id. }
  rewrite Hseq in Hkeys. done.
Qed.

(** X13. The constructor builds [num_particles] particles under the keys
    0, ..., num_particles - 1, each key once, and as many weights, every one
    of them 1 / num_particles; the particle under each of these keys starts
    at the starting pose with the given importance factor, the robot handle
    of the filter and an empty bank. *)
Theorem FastSLAMPF_new_invariants (rob_ptr : option RobotManager2D)
    (num_particles : Z) (starting_pose : Pose2D) (lm_importance_factor : float) :
  let pf := FastSLAMPF_new rob_ptr num_particles starting_pose
              lm_importance_factor in
  m_robot_pf pf = rob_ptr /\
  m_num_particles pf = num_particles /\
  map fst (m_particle_set pf) ≡ₚ seqZ 0 num_particles /\
  NoDup (map fst (m_particle_set pf)) /\
  length (m_particle_set pf) = Z.to_nat num_particles /\
  (forall k, 0 <= k < num_particles ->
     um_find k (m_particle_set pf) =
     Some (FastSLAMParticles_new lm_importance_factor starting_pose rob_ptr)) /\
  m_particle_weights pf =
    replicate (Z.to_nat num_particles)
      (fdiv (float_of_int 1) (float_of_int num_particles)).
Proof.
  intros pf.
  destruct (FastSLAMPF_new_inv rob_ptr num_particles starting_pose
              lm_importance_factor) as (Hrob & Hnum & Hkeys & Hfresh & Hw).
  fold pf in Hrob, Hnum, Hkeys, Hfresh, Hw.
  split; [done|]. split; [done|]. split; [done|].
  split; [rewrite Hkeys; apply NoDup_seqZ|]. split.
  { rewrite <- (length_map fst), Hkeys. apply length_seqZ. }
  split; [|done].
  intros k Hk.
  destruct (um_find_is_Some k (m_particle_set pf)) as [particle Hfind].
  { rewrite Hkeys, elem_of_seqZ. lia. }
  rewrite Hfind. f_equal.
  apply um_find_Some_elem in Hfind.
  rewrite Forall_forall in Hfresh. by apply Hfresh in Hfind.
Qed.

(** *** reSampleParticles *)

Lemma genCDF_from_length (acc : float) weights :
  length (genCDF_from acc weights) = length weights.
Proof.
  revert acc. induction weights as [|w ws IH]; intros acc; simpl; [done|].
  by rewrite IH.
Qed.

Lemma reSampleParticles_loop_installed set its cdf_table total_weight aux_set rng
    aux_set' rng' :
  reSampleParticles_loop set its cdf_table total_weight aux_set rng =
    Done (aux_set', rng') ->
  Forall (installed_from set) aux_set ->
  Forall (installed_from set) aux_set'.
Proof.
  revert aux_set rng.
  induction its as [|[k particle] rest IH]; intros aux_set rng Hrun Haux;
    simpl in Hrun.
  { by inversion Hrun; subst. }
  destruct (sampleUniform _ total_weight rng) as [sampled_weight rng1].
  destruct (drawWithReplacement cdf_table sampled_weight) as [sampled_idx|];
    simpl in Hrun; [|done].
  destruct (um_at set _) as [drawn|] eqn:Hat; simpl in Hrun; [|done].
  apply IH in Hrun; [done|].
  apply um_insert_Forall; [|done].
  exists drawn. split; [by eapply um_at_elem|done].
Qed.

Lemma installed_bank_is_empty set kv : installed_from set kv -> bank_is_empty kv.
Proof. intros (src & _ & Hkv). unfold bank_is_empty. by rewrite Hkv. Qed.

(** X14. Whenever [reSampleParticles] completes on a particle set whose keys
    are distinct, it leaves the robot handle, the particle count and the
    weights as they were and a particle set with the same keys, in which
    every particle is the copy-constructed copy of a particle of the old
    set. *)
Theorem reSampleParticles_frame pf rng pf' rng' :
  NoDup (map fst (m_particle_set pf)) ->
  reSampleParticles pf rng = Done (pf', rng') ->
  m_robot_pf pf' = m_robot_pf pf /\
  m_num_particles pf' = m_num_particles pf /\
  m_particle_weights pf' = m_particle_weights pf /\
  map fst (m_particle_set pf') ≡ₚ map fst (m_particle_set pf) /\
  length (m_particle_set pf') = length (m_particle_set pf) /\
  Forall (installed_from (m_particle_set pf)) (m_particle_set pf').
Proof.
  intros Hnodup Hrun.
  destruct (reSampleParticles_effect _ _ _ _ Hrun Hnodup) as (Hw & Hkeys & _).
  unfold reSampleParticles in Hrun.
  destruct (genCDF (m_particle_weights pf)) as [total_weight cdf_table].
  destruct (reSampleParticles_loop _ _ _ _ _ _) as [[aux_set rng1]|] eqn:Hloop;
    simpl in Hrun; [|done].
  inversion Hrun; subst. simpl in *.
  split; [done|]. split; [done|]. split; [done|]. split; [done|]. split.
  - rewrite <- (length_map fst), Hkeys. apply length_map.
  - eapply reSampleParticles_loop_installed; [done|constructor].
Qed.

Lemma reSampleParticles_loop_completes set its cdf_table total_weight aux_set rng :
  (2 <= length cdf_table)%nat ->
  (forall k, 0 <= k <= Z.of_nat (length cdf_table) - 2 -> is_Some (um_find k set)) ->
  (forall it, it ∈ its -> is_Some (um_find it.1 set)) ->
  exists aux_set' rng',
    reSampleParticles_loop set its cdf_table total_weight aux_set rng =
      Done (aux_set', rng').
Proof.
  intros Hlen Hkeys. revert aux_set rng.
  induction its as [|it rest IH]; intros aux_set rng Hits; simpl.
  { by eexists _, _. }
  destruct (sampleUniform _ total_weight rng) as [sampled_weight rng1].
  destruct (last cdf_table) as [back|] eqn:Hlast.
  2: { apply last_None in Hlast. subst. simpl in Hlen. lia. }
  destruct (drawWithReplacement_range cdf_table sampled_weight back Hlen Hlast)
    as (r & -> & Hr & _).
  simpl.
  assert (Hsome : is_Some (um_find (if r >=? 0 then r else it.1) set)).
  { destruct (r >=? 0) eqn:Hge.
    - apply Hkeys. lia.
    - apply Hits. apply list_elem_of_here. }
  destruct Hsome as [drawn Hdrawn]. unfold um_at. rewrite Hdrawn. simpl.
  apply IH. intros it' Hin. apply Hits. by apply list_elem_of_further.
Qed.

(** X15. With two or more weights [reSampleParticles] always completes when
    the particle set holds the keys 0, ..., size - 2 of the weights: the
    index that [drawWithReplacement] returns is a key of the set, and the
    fallback key is the key of the node being visited. *)
Theorem reSampleParticles_completes pf rng :
  (2 <= length (m_particle_weights pf))%nat ->
  (forall k, 0 <= k <= Z.of_nat (length (m_particle_weights pf)) - 2 ->
     k ∈ map fst (m_particle_set pf)) ->
  exists pf' rng', reSampleParticles pf rng = Done (pf', rng').
Proof.
  intros Hlen Hkeys. unfold reSampleParticles, genCDF.
  set (cdf := genCDF_from (float_of_int 0) (m_particle_weights pf)).
  assert (Hcdf : length cdf = length (m_particle_weights pf))
    by apply genCDF_from_length.
  destruct (reSampleParticles_loop_completes (m_particle_set pf)
              (m_particle_set pf) cdf (default (float_of_int 0) (last cdf)) [] rng)
    as (aux_set & rng1 & ->).
  - lia.
  - intros k Hk. apply um_find_is_Some, Hkeys. lia.
  - intros it Hin. apply um_find_is_Some. by apply (list_elem_of_fmap_2 fst).
  - by eexists _, _.
Qed.

(** X16. When the CDF of the weights has a single entry, as for a filter of
    one particle, and the uniform draw passes the range test, both
    [reSampleParticles], on a non-empty particle set, and [sampleLandmarks]
    read the uninitialised [middle] of [drawWithReplacement]. *)
Theorem single_weight_reads_uninitialised pf rng (c : float) :
  (genCDF (m_particle_weights pf)).2 = [c] ->
  m_particle_set pf <> [] ->
  let u := (sampleUniform (float_of_int 0) (genCDF (m_particle_weights pf)).1 rng).1 in
  flt u (float_of_int 0) = false ->
  fgt u c = false ->
  reSampleParticles pf rng = Fault UninitialisedRead /\
  sampleLandmarks pf rng = Fault UninitialisedRead.
Proof.
  intros Hcdf Hset u Hneg Hgt. subst u.
  unfold reSampleParticles, sampleLandmarks.
  destruct (genCDF (m_particle_weights pf)) as [total_weight cdf_table].
  simpl in *. subst cdf_table.
  destruct (m_particle_set pf) as [|it rest]; [done|]. simpl.
  destruct (sampleUniform _ total_weight rng) as [sampled_weight rng1].
  simpl in *.
  by rewrite (drawWithReplacement_singleton c sampled_weight Hneg Hgt).
Qed.

Lemma reSampleParticles_loop_banks set its cdf_table total_weight aux_set rng
    aux_set' rng' :
  reSampleParticles_loop set its cdf_table total_weight aux_set rng =
    Done (aux_set', rng') ->
  Forall bank_is_empty aux_set ->
  Forall bank_is_empty aux_set'.
Proof.
  revert aux_set rng.
  induction its as [|[k particle] rest IH]; intros aux_set rng Hrun Haux;
    simpl in Hrun.
  { by inversion Hrun; subst. }
  destruct (sampleUniform _ total_weight rng) as [sampled_weight rng1].
  destruct (drawWithReplacement cdf_table sampled_weight) as [sampled_idx|];
    simpl in Hrun; [|done].
  destruct (um_at set _) as [drawn|]; simpl in Hrun; [|done].
  apply IH in Hrun; [done|]. by apply um_insert_Forall.
Qed.

Lemma reSampleParticles_banks_empty pf rng pf' rng' :
  reSampleParticles pf rng = Done (pf', rng') ->
  Forall bank_is_empty (m_particle_set pf').
Proof.
  unfold reSampleParticles. intros Hrun.
  destruct (genCDF (m_particle_weights pf)) as [total_weight cdf_table].
  destruct (reSampleParticles_loop _ _ _ _ _ _) as [[aux_set rng1]|] eqn:Hloop;
    simpl in Hrun; [|done].
  inversion Hrun; subst. simpl.
  eapply reSampleParticles_loop_banks; [done|constructor].
Qed.

(** *** updateFilter and sampleLandmarks *)

(** X17. One pass of [updateFilter] over the particle set, for the
    observation at the front of the queue: the node visited [k]-th keeps its
    key, its particle is updated with that observation at a pose sampled for
    it, and the weight the particle returns is added to [weights[k]], the
    entry of its position in the iteration; the entries past the number of
    nodes are untouched and the number of weights does not change. *)
Theorem updateFilter_pass_slots LM_CLEANUP pf (a_robot_pose_mean : Pose2D)
    (front : Observation2D) set weights rng set' weights' rng' :
  updateFilter_particles LM_CLEANUP pf a_robot_pose_mean front set 0 weights rng
    = Done (set', weights', rng') ->
  length weights' = length weights /\
  map fst set' = map fst set /\
  (forall j, (length set <= j)%nat -> weights' !! j = weights !! j) /\
  (forall k it, set !! k = Some it ->
     exists rng1 pose rng2 w particle old,
       samplePose pf a_robot_pose_mean rng1 = Done (pose, rng2) /\
       updateParticle_at LM_CLEANUP front pose it.2 = Done (w, particle) /\
       set' !! k = Some (it.1, particle) /\
       weights !! k = Some old /\
       weights' !! k = Some (fadd old w)).
Proof.
  intros Hrun.
  apply updateFilter_particles_spec in Hrun as (Hlen & Hkeys & Hframe & Hslots);
    [|lia].
  split; [done|]. split; [done|]. split.
  - intros j Hj. apply Hframe. right. simpl. lia.
  - intros k it Hk. by apply Hslots.
Qed.

(** X19. A pass that completes has found an entry of the weights for every
    node it visited: draining a non-empty queue cannot complete on a filter
    with fewer weights than particles, it indexes the weights out of
    bounds or fails earlier. *)
Theorem updateFilter_drain_needs_weights LM_CLEANUP pf
    (a_robot_pose_mean : Pose2D) (front : Observation2D)
    (popped : list Observation2D) rng pf' queue' rng' :
  updateFilter_drain LM_CLEANUP pf a_robot_pose_mean (front :: popped) rng =
    Done (pf', queue', rng') ->
  (length (m_particle_set pf) <= length (m_particle_weights pf))%nat.
Proof.
  intros Hrun. rewrite updateFilter_drain_cons in Hrun.
  destruct (updateFilter_particles _ _ _ _ _ _ _ _) as [[[set weights] rng1]|]
    eqn:Hpass; simpl in Hrun; [|done].
  apply updateFilter_particles_spec in Hpass as (_ & _ & _ & Hslots); [|lia].
  destruct (m_particle_set pf) as [|it0 rest] eqn:Hset using rev_ind;
    [simpl; lia|].
  clear IHrest.
  destruct (Hslots (length rest) it0) as (_ & _ & _ & _ & _ & old & _ & _ & _ & Hold & _).
  { by rewrite lookup_app_r, Nat.sub_diag. }
  apply lookup_lt_Some in Hold. rewrite length_app. simpl in *. lia.
Qed.

(** X20. After any [updateFilter] that completes, [sampleLandmarks] has no
    landmark to return: whenever it returns, it returns the empty vector,
    whatever the queue held.  Every particle of the filter then comes out of
    the copy constructor. *)
Theorem sampleLandmarks_after_updateFilter LM_CLEANUP pf
    (a_robot_pose_mean : Pose2D) (queue : list Observation2D) rng
    pf' queue' rng' rng2 landmarks rng3 :
  updateFilter LM_CLEANUP pf a_robot_pose_mean queue rng =
    Done (pf', queue', rng') ->
  sampleLandmarks pf' rng2 = Done (landmarks, rng3) ->
  landmarks = [].
Proof.
  intros Hrun Hsample. rewrite updateFilter_eq in Hrun.
  destruct (updateFilter_drain _ _ _ _ _) as [[[pf1 q1] rng1]|];
    simpl in Hrun; [|done].
  destruct (reSampleParticles pf1 rng1) as [[pf2 rng4]|] eqn:Hres;
    simpl in Hrun; [|done].
  inversion Hrun; subst. clear Hrun.
  apply reSampleParticles_banks_empty in Hres.
  unfold sampleLandmarks in Hsample.
  destruct (genCDF (m_particle_weights pf')) as [total_weight cdf_table].
  destruct (sampleUniform _ total_weight rng2) as [sampled_weight rng5].
  destruct (drawWithReplacement cdf_table sampled_weight) as [sampled_idx|];
    simpl in Hsample; [|done].
  destruct (um_find sampled_idx (m_particle_set pf')) as [particle|] eqn:Hfind;
    [|done].
  inversion Hsample; subst.
  apply um_find_Some_elem in Hfind.
  rewrite Forall_forall in Hres. apply Hres in Hfind.
  unfold bank_is_empty in Hfind. simpl in Hfind.
  unfold getLandmarkCoordinates. by rewrite Hfind.
Qed.

(** X21. When the uniform draw compares below 0, [drawWithReplacement]
    returns -1 and [sampleLandmarks] looks the key -1 up with [at()]: on a
    particle set without that key it throws [std::out_of_range], where
    [reSampleParticles] falls back to the key of the node. *)
Theorem sampleLandmarks_out_of_range pf rng :
  let u := (sampleUniform (float_of_int 0) (genCDF (m_particle_weights pf)).1 rng).1 in
  flt u (float_of_int 0) = true ->
  (-1) ∉ map fst (m_particle_set pf) ->
  sampleLandmarks pf rng = Fault OutOfRange.
Proof.
  intros u Hneg Hkey. subst u. unfold sampleLandmarks.
  destruct (genCDF (m_particle_weights pf)) as [total_weight cdf_table].
  simpl in *.
  destruct (sampleUniform _ total_weight rng) as [sampled_weight rng1].
  simpl in *. rewrite (drawWithReplacement_negative _ _ Hneg). simpl.
  apply um_find_None in Hkey. by rewrite Hkey.
Qed.

(** X22. A filter that the constructor built and that one completed
    [updateFilter] call has updated still has [num_particles] particles,
    under the keys 0, ..., num_particles - 1, and [num_particles] weights;
    its queue is drained and every particle has an empty bank. *)
Theorem FastSLAMPF_new_then_updateFilter LM_CLEANUP
    (rob_ptr : option RobotManager2D) (num_particles : Z)
    (starting_pose : Pose2D) (lm_importance_factor : float)
    (a_robot_pose_mean : Pose2D) (queue : list Observation2D) rng
    pf' queue' rng' :
  updateFilter LM_CLEANUP
    (FastSLAMPF_new rob_ptr num_particles starting_pose lm_importance_factor)
    a_robot_pose_mean queue rng = Done (pf', queue', rng') ->
  queue' = [] /\
  map fst (m_particle_set pf') ≡ₚ seqZ 0 num_particles /\
  length (m_particle_set pf') = Z.to_nat num_particles /\
  length (m_particle_weights pf') = Z.to_nat num_particles /\
  Forall bank_is_empty (m_particle_set pf').
Proof.
  intros Hrun.
  destruct (FastSLAMPF_new_inv rob_ptr num_particles starting_pose
              lm_importance_factor) as (_ & _ & Hkeys0 & _ & Hw0).
  rewrite updateFilter_eq in Hrun.
  destruct (updateFilter_drain _ _ _ _ _) as [[[pf1 q1] rng1]|] eqn:Hdrain;
    simpl in Hrun; [|done].
  destruct (reSampleParticles pf1 rng1) as [[pf2 rng2]|] eqn:Hres;
    simpl in Hrun; [|done].
  inversion Hrun; subst. clear Hrun.
  apply updateFilter_drain_keys in Hdrain as (-> & Hkeys1 & Hlen1).
  apply reSampleParticles_effect in Hres as (Hw & Hkeys2 & Hbanks).
  2: { rewrite Hkeys1, Hkeys0. apply NoDup_seqZ. }
  assert (Hkeys : map fst (m_particle_set pf') ≡ₚ seqZ 0 num_particles).
  { by rewrite Hkeys2, Hkeys1. }
  split; [done|]. split; [done|]. split; [|split; [|done]].
  - rewrite <- (length_map fst), Hkeys. apply length_seqZ.
  - rewrite Hw, Hlen1, Hw0. apply length_replicate.
Qed.

(** X23. A filter built with a null robot manager fails on its first
    update: with a particle to visit and an observation in the queue,
    [updateFilter] dereferences the null handle in [samplePose]. *)
Theorem updateFilter_null_robot LM_CLEANUP pf (a_robot_pose_mean : Pose2D)
    (front : Observation2D) (popped : list Observation2D) rng :
  m_robot_pf pf = None ->
  m_particle_set pf <> [] ->
  updateFilter LM_CLEANUP pf a_robot_pose_mean (front :: popped) rng =
    Fault NullDereference.
Proof.
  intros Hnull Hset. unfold updateFilter. simpl.
  destruct (m_particle_set pf) as [|it rest]; [done|]. simpl.
  unfold samplePose. by rewrite Hnull.
Qed.

End FilterCoverage.

(** ** The code run in the mock world *)

Import Mock Scenario.

(** Closed goals of the mock world are settled by evaluation.  The values
    carry the instances of the interfaces as parameters, so the evaluation
    is left to conversion, which does not normalise them. *)
Ltac run := reflexivity.

Ltac runs := repeat (apply conj); run.

Lemma xlt_Qlt (p q : Q) : xlt (Num p) (Num q) = true <-> (p < q)%Q.
Proof.
  simpl. rewrite negb_true_iff, <- not_true_iff_false, Qle_bool_iff.
  split; [apply Qnot_le_lt|apply Qlt_not_le].
Qed.

Lemma xlt_false_Qle (p q : Q) : xlt (Num p) (Num q) = false <-> (q <= p)%Q.
Proof.
  simpl. rewrite negb_false_iff. apply Qle_bool_iff.
Qed.

(** The comparisons of the mock arithmetic obey the order laws. *)
Lemma mock_order : FloatOrder.
Proof.
  split.
  - intros [q|] Ha; [|done]. apply xlt_false_Qle. apply Qle_refl.
  - intros [a|] [b|] [c|] Ha Hb Hc; try done.
    rewrite !xlt_Qlt. apply Qlt_trans.
  - intros [a|] [b|] [c|] Ha Hb Hc; try done.
    rewrite !xlt_Qlt. intros Hab.
    destruct (Qlt_le_dec a c) as [Hac|Hca]; [by left|right].
    by eapply Qle_lt_trans.
  - intros [a|] [b|] Ha Hb; try done. simpl. by rewrite negb_involutive.
Qed.

(** Eigen's laws on the zero matrix hold in the mock world. *)
Lemma mock_zero_laws : EigenZeroLaws.
Proof.
  split.
  - intros l Hl. by vm_compute in Hl.
  - by vm_compute.
  - by intros [z0|] [z1|] [z2|] H0 H1 H2.
Qed.

(** C1. The particle that sampled the shifted pose holds two (EKF, counter)
    pairs.  Its copy-constructed copy holds none, where the claim asks for
    the copy that duplicates both, which here is the particle itself. *)
Theorem copy_constructor_drops_bank :
  length (m_lmekf_bank particle_B) = 2%nat /\
  FastSLAMParticles_copy particle_B =
    particle shifted [] 1 (xint 1) (Some robot1) /\
  deep_copy particle_B = particle_B /\
  FastSLAMParticles_copy particle_B <> deep_copy particle_B.
Proof.
  split; [run|]. split; [run|]. split; [run|].
  intros Heq. apply (f_equal (fun p => length (m_lmekf_bank p))) in Heq.
  vm_compute in Heq. discriminate Heq.
Qed.

(** C2. On the CDF [1, 2] the sample 1 lies in the interval of index 1,
    [cdf[0] <= 1 < cdf[1]], and [drawWithReplacement] returns 0: the loop
    ends after [start = middle + 1] and the function returns [middle].  On
    the one-element CDF [1] the sample 0 lies in the interval of index 0 and
    the function reads [middle] uninitialised, the loop never having run. *)
Theorem drawWithReplacement_returns_middle :
  cdf_interval [xint 1; xint 2] (xint 1) 1 /\
  drawWithReplacement [xint 1; xint 2] (xint 1) = Done 0 /\
  cdf_interval [xint 1] (xint 0) 0 /\
  drawWithReplacement [xint 1] (xint 0) = Fault UninitialisedRead.
Proof.
  split; [|split; [run|split; [|run]]].
  - split; [run|]. exists (xint 2). split; run.
  - split; [run|]. exists (xint 1). split; run.
Qed.

(** The passes of the run, particle by particle: the particle under key 1
    returns the weights 1 and 8, the particle under key 0 the weights 1
    and 1. *)
Lemma scenario_increments :
  updateParticle_at false z_a origin particle_fresh = Done (xint 1, particle_A1) /\
  updateParticle_at false z_a origin particle_A1 = Done (xint 8, particle_A) /\
  updateParticle_at false z_a shifted particle_fresh = Done (xint 1, particle_B1) /\
  updateParticle_at false z_a shifted particle_B1 = Done (xint 1, particle_B).
Proof. runs. Qed.

(** C3. A filter of two particles built by the constructor on a table that
    links new nodes at the front iterates key 1 before key 0.  Draining two
    sightings leaves under key 0 the particle that returned the weights 1
    and 1, and in [weights[0]] the value 1/2 + 1 + 8 = 19/2: the weights
    that the particle under key 1 returned.  The weights of the particle
    under key 0 are in [weights[1]] = 1/2 + 1 + 1 = 5/2.  Resampling then
    runs once, on the drained state. *)
Theorem updateFilter_slot_is_iteration_position :
  m_particle_set filter_start = [(1, particle_fresh); (0, particle_fresh)] /\
  m_particle_weights filter_start = [Num (1 # 2); Num (1 # 2)] /\
  updateFilter_drain false filter_start origin [z_a; z_a]
    (normal_draws ++ uniform_draws) = Done (filter_drained, [], uniform_draws) /\
  um_find 0 (m_particle_set filter_drained) = Some particle_B /\
  um_find 1 (m_particle_set filter_drained) = Some particle_A /\
  m_particle_weights filter_drained !! 0%nat =
    Some (fadd (fadd (Num (1 # 2)) (xint 1)) (xint 8)) /\
  m_particle_weights filter_drained !! 1%nat =
    Some (fadd (fadd (Num (1 # 2)) (xint 1)) (xint 1)) /\
  updateFilter (HP := link_front) false filter_start origin [z_a; z_a]
    (normal_draws ++ uniform_draws) = Done (filter_resampled, [], []).
Proof. runs. Qed.

(** The same run on a table that iterates in insertion order: the slot of
    a particle is then its key. *)
Lemma scenario_in_insertion_order :
  m_particle_set filter_start_in_order = [(0, particle_fresh); (1, particle_fresh)] /\
  updateFilter_drain false filter_start_in_order origin [z_a; z_a]
    (normal_draws ++ uniform_draws) =
    Done (filter_drained_in_order, [], uniform_draws).
Proof. runs. Qed.

(** C8. Resampling the drained filter with two uniform draws of 0: the
    weights stay [19/2, 5/2] and the keys stay 0 and 1; both draws select
    index 0, the particle with two landmarks, and both slots receive a
    particle with an empty bank, where the claim asks for a deep copy of the
    particle selected. *)
Theorem reSampleParticles_installs_empty_banks :
  drawWithReplacement (genCDF (m_particle_weights filter_drained)).2 (xint 0) = Done 0 /\
  um_at (m_particle_set filter_drained) 0 = Done particle_B /\
  reSampleParticles (HP := link_front) filter_drained uniform_draws =
    Done (filter_resampled, []) /\
  m_particle_weights filter_resampled = m_particle_weights filter_drained /\
  map (fun kv => m_lmekf_bank kv.2) (m_particle_set filter_resampled) = [[]; []] /\
  m_lmekf_bank (deep_copy particle_B) = m_lmekf_bank particle_B.
Proof. runs. Qed.

(** C7, as the claim states it, fails.  The process noise
    diag(-1/1024, 1, 1) has no Cholesky factor; the code takes the square
    root of the eigenvalue -1/1024, so its factor differs from the factor
    with clamped eigenvalues and the sampled pose is NaN in every
    component, where the clamped factor gives the pose (0, 1, 1). *)
Lemma samplePose_roots_negative_eigenvalue :
  LLT noise_indefinite = None /\
  samplePose_factor noise_indefinite <> samplePose_factor_clamped noise_indefinite /\
  samplePose (filter_with_noise noise_indefinite) origin [xint 1; xint 1; xint 1] =
    Done (pose_NaN, []) /\
  Pose2D_add origin
    (m3_mulv (samplePose_factor_clamped noise_indefinite)
             (v3_make (xint 1) (xint 1) (xint 1))) =
    {| pose_x := xint 0; pose_y := xint 1; theta_rad := xint 1 |}.
Proof.
  split; [run|]. split; [|split; run].
  intros Heq. apply (f_equal (fun m => v0 (row0 m))) in Heq.
  vm_compute in Heq. discriminate Heq.
Qed.

(** C9, as the claim states it, fails.  The second landmark of the particle
    has the counter 1; a cleanup brings it to zero and keeps the EKF in the
    bank, and the next cleanup brings the counter to -1. *)
Lemma cleanUpSightings_counter_below_zero :
  cleanUpSightings (particle_seen 1) = Done (particle_seen 0) /\
  length (m_lmekf_bank (particle_seen 0)) = 2%nat /\
  cleanUpSightings (particle_seen 0) = Done (particle_seen (-1)).
Proof. runs. Qed.

(** *** The theorems at concrete inputs *)

Lemma updateParticle_null_robot_witness :
  m_robot (particle_three 0 None) = None /\
  updateParticle false z_a (particle_three 0 None) =
    Done (float_of_int (-1), particle_three 0 None).
Proof.
  split; [reflexivity|].
  apply updateParticle_null_robot. reflexivity.
Defined.

Lemma updateLMBelief_bank_witness :
  m_robot particle_fresh = Some robot1 /\
  m_data_label particle_fresh = Z.of_nat (length (m_lmekf_bank particle_fresh)) /\
  updateLMBelief z_a particle_fresh = Done (PF_RET.SUCCESS, particle_A1) /\
  m_robot (particle_three 1 (Some robot1)) = Some robot1 /\
  0 <= m_data_label (particle_three 1 (Some robot1)) /\
  m_lmekf_bank (particle_three 1 (Some robot1)) !! 1%nat =
    Some (landmark (at_xy 2 0) None, 1) /\
  update (updateObservation z_a (landmark (at_xy 2 0) None)) =
    (KF_RET.SUCCESS, landmark (at_xy 2 0) (Some z_a)) /\
  exists bank',
    updateLMBelief z_a (particle_three 1 (Some robot1)) =
      Done (PF_RET.SUCCESS, set_bank bank' (particle_three 1 (Some robot1))) /\
    length bank' = 3%nat /\
    bank' !! 1%nat = Some (landmark (at_xy 2 0) (Some z_a), 2) /\
    forall j, j <> 1%nat ->
      bank' !! j = m_lmekf_bank (particle_three 1 (Some robot1)) !! j.
Proof.
  split; [reflexivity|]. split; [reflexivity|]. split.
  { exact (proj1 (updateLMBelief_bank z_a particle_fresh robot1 eq_refl) eq_refl). }
  split; [reflexivity|]. split; [simpl; lia|].
  split; [reflexivity|]. split; [reflexivity|].
  apply (proj2 (updateLMBelief_bank z_a (particle_three 1 (Some robot1)) robot1
                  eq_refl)
               (landmark (at_xy 2 0) None) 1 (landmark (at_xy 2 0) (Some z_a)));
    [simpl; lia|reflexivity|reflexivity].
Defined.

Lemma cleanUpSightings_counters_witness :
  m_robot (particle_seen 1) = Some robot1 /\
  exists bank',
    cleanUpSightings (particle_seen 1) = Done (set_bank bank' (particle_seen 1)) /\
    length bank' = length (m_lmekf_bank (particle_seen 1)) /\
    map fst bank' = map fst (m_lmekf_bank (particle_seen 1)) /\
    forall k ekf count,
      m_lmekf_bank (particle_seen 1) !! k = Some (ekf, count) ->
      Z.of_nat k <> m_data_label (particle_seen 1) ->
      bank' !! k =
      Some (ekf,
            if fle (findDist (getLMEst ekf) (m_robot_pose (particle_seen 1)))
                   (getPerceptualRange robot1)
            then count - 1 else count).
Proof.
  split; [reflexivity|].
  apply cleanUpSightings_counters. reflexivity.
Defined.

Lemma updateParticle_weight_witness :
  m_robot (particle_three 0 (Some robot1)) = Some robot1 /\
  (forall r, PF_RET_int r = PF_RET_int PF_RET.SUCCESS -> r = PF_RET.SUCCESS) /\
  exists ret p2,
    updateLMBelief z_a (matchLandmark z_a (particle_three 0 (Some robot1))).2 =
      Done (ret, p2) /\
    (ret <> PF_RET.SUCCESS ->
       (ret = PF_RET.EMPTY_ROBOT_MANAGER \/ ret = PF_RET.MATRIX_INVERSION_ERROR) /\
       updateParticle false z_a (particle_three 0 (Some robot1)) =
       Done (float_of_int (PF_RET_int PF_RET.UPDATE_ERROR), p2)) /\
    (ret = PF_RET.SUCCESS ->
       (exists p3,
          updateParticle false z_a (particle_three 0 (Some robot1)) =
          Done (m_curr_max_wn (matchLandmark z_a (particle_three 0 (Some robot1))).2, p3)) /\
       ((matchLandmark z_a (particle_three 0 (Some robot1))).1 < 3 ->
          cpds z_a (m_lmekf_bank (particle_three 0 (Some robot1)))
            !! Z.to_nat (matchLandmark z_a (particle_three 0 (Some robot1))).1 =
          Some (m_curr_max_wn (matchLandmark z_a (particle_three 0 (Some robot1))).2)) /\
       ((matchLandmark z_a (particle_three 0 (Some robot1))).1 = 3 ->
          m_curr_max_wn (matchLandmark z_a (particle_three 0 (Some robot1))).2 =
          m_importance_factor (particle_three 0 (Some robot1)))).
Proof.
  assert (Hinj : forall r, PF_RET_int r = PF_RET_int PF_RET.SUCCESS ->
                           r = PF_RET.SUCCESS).
  { intros r. destruct r; simpl; intros Hr; (reflexivity || discriminate Hr). }
  split; [reflexivity|]. split; [exact Hinj|].
  exact (updateParticle_weight false z_a (particle_three 0 (Some robot1)) robot1
           eq_refl Hinj).
Defined.

Lemma matchLandmark_argmax_witness :
  is_number (m_importance_factor (particle_three 0 (Some robot1))) /\
  Forall is_number (cpds z_a (m_lmekf_bank (particle_three 0 (Some robot1)))) /\
  (m_data_label (matchLandmark z_a (particle_three 0 (Some robot1))).2 =
     (matchLandmark z_a (particle_three 0 (Some robot1))).1 /\
   0 <= (matchLandmark z_a (particle_three 0 (Some robot1))).1 <= 3 /\
   m_lmekf_bank (matchLandmark z_a (particle_three 0 (Some robot1))).2 =
     observed z_a (m_lmekf_bank (particle_three 0 (Some robot1))) /\
   ((forall k w,
       cpds z_a (m_lmekf_bank (particle_three 0 (Some robot1))) !! k = Some w ->
       fgt w (xint 1) = false) ->
    (matchLandmark z_a (particle_three 0 (Some robot1))).1 = 3) /\
   ((exists k w,
       cpds z_a (m_lmekf_bank (particle_three 0 (Some robot1))) !! k = Some w /\
       fgt w (xint 1) = true) ->
    (matchLandmark z_a (particle_three 0 (Some robot1))).1 < 3 /\
    cpds z_a (m_lmekf_bank (particle_three 0 (Some robot1)))
      !! Z.to_nat (matchLandmark z_a (particle_three 0 (Some robot1))).1 =
      Some (m_curr_max_wn (matchLandmark z_a (particle_three 0 (Some robot1))).2) /\
    (forall k w,
       cpds z_a (m_lmekf_bank (particle_three 0 (Some robot1))) !! k = Some w ->
       fgt w (m_curr_max_wn (matchLandmark z_a (particle_three 0 (Some robot1))).2)
         = false) /\
    (forall k w,
       (k < Z.to_nat (matchLandmark z_a (particle_three 0 (Some robot1))).1)%nat ->
       cpds z_a (m_lmekf_bank (particle_three 0 (Some robot1))) !! k = Some w ->
       flt w (m_curr_max_wn (matchLandmark z_a (particle_three 0 (Some robot1))).2)
         = true)) /\
   m_curr_max_wn (matchLandmark z_a (particle_three 0 (Some robot1))).2 =
     foldl fmax (xint 1) (cpds z_a (m_lmekf_bank (particle_three 0 (Some robot1)))) /\
   (forall k w,
      cpds z_a (m_lmekf_bank (particle_three 0 (Some robot1))) !! k = Some w ->
      fge (m_curr_max_wn (matchLandmark z_a (particle_three 0 (Some robot1))).2) w
        = true) /\
   fge (m_curr_max_wn (matchLandmark z_a (particle_three 0 (Some robot1))).2)
       (xint 1) = true).
Proof.
  assert (Hws : Forall is_number
                  (cpds z_a (m_lmekf_bank (particle_three 0 (Some robot1))))).
  { repeat constructor. }
  split; [exact I|]. split; [exact Hws|].
  exact (matchLandmark_argmax (FO := mock_order) z_a
           (particle_three 0 (Some robot1)) I Hws).
Defined.

(** The run behind the witness: the densities are 0, 8 and 8, and the
    label is 1, the lower of the two indices with the greatest density. *)
Lemma matchLandmark_tie_lowest_index :
  cpds z_a (m_lmekf_bank (particle_three 0 (Some robot1))) =
    [xint 0; xint 8; xint 8] /\
  (matchLandmark z_a (particle_three 0 (Some robot1))).1 = 1 /\
  m_curr_max_wn (matchLandmark z_a (particle_three 0 (Some robot1))).2 = xint 8.
Proof. runs. Qed.

Lemma samplePose_fallback_witness :
  m_robot_pf (filter_with_noise M3_zero) = Some (robot_with_noise M3_zero) /\
  LLT (getProcessNoise (robot_with_noise M3_zero)) = None /\
  samplePose (filter_with_noise M3_zero) origin [xint 1; xint 1; xint 1] =
    Done (Pose2D_add origin
            (m3_mulv
               (m3_mul (eigenvectors M3_zero)
                       (v3_asDiagonal (v3_cwiseSqrt (eigenvalues M3_zero))))
               (v3_make (xint 1) (xint 1) (xint 1))),
          []) /\
  getProcessNoise (robot_with_noise M3_zero) = m3_Zero /\
  EigenZeroLaws /\
  is_number (xint 1) /\
  Pose2D_add origin v3_Zero = origin /\
  samplePose (filter_with_noise M3_zero) origin [xint 1; xint 1; xint 1] =
    Done (origin, []).
Proof.
  pose proof (samplePose_fallback (filter_with_noise M3_zero)
                (robot_with_noise M3_zero) origin [xint 1; xint 1; xint 1]
                eq_refl) as [Hfallback Hzero].
  split; [reflexivity|]. split; [reflexivity|].
  split; [exact (Hfallback eq_refl)|].
  split; [reflexivity|]. split; [exact mock_zero_laws|].
  split; [exact I|]. split; [reflexivity|].
  exact (Hzero eq_refl mock_zero_laws I I I eq_refl).
Defined.

(** The two branches of [updateParticle] run: the matched landmark yields
    its density 8; a landmark whose update fails yields the sentinel, which
    in the mock world is the value 3 of UPDATE_ERROR. *)
Lemma scenario_update_outcomes :
  returned (updateParticle false z_a (particle_three 0 (Some robot1))) =
    Done (xint 8) /\
  returned (updateLMBelief z_a (matchLandmark z_a particle_singular).2) =
    Done PF_RET.MATRIX_INVERSION_ERROR /\
  returned (updateParticle false z_a particle_singular) = Done (xint 3).
Proof. runs. Qed.

(** The cleanup with the label on the second of three landmarks: [i] stays
    0, the labelled landmark is not skipped and its counter goes from 1 to
    0 along with the counter of the third; the first is out of range. *)
Lemma scenario_cleanup_label_not_skipped :
  cleanUpSightings (particle_three 1 (Some robot1)) =
  Done (particle origin
          [(landmark (at_xy 7 0) None, 1);
           (landmark (at_xy 2 0) None, 0);
           (landmark (at_xy 2 0) None, 2)]
          1 (xint 1) (Some robot1)).
Proof. run. Qed.

(** *** The further properties at concrete inputs *)

Lemma updateLMBelief_failed_update_witness :
  m_robot (particle_three 0 None) = None /\
  updateLMBelief z_a (particle_three 0 None) =
    Done (PF_RET.EMPTY_ROBOT_MANAGER, particle_three 0 None) /\
  m_robot particle_singular = Some robot1 /\
  0 <= m_data_label particle_singular /\
  (exists ekf ekf',
     m_lmekf_bank particle_singular !! 0%nat = Some (ekf, 1) /\
     update (updateObservation z_a ekf) = (KF_RET.MATRIX_INVERSION_ERROR, ekf') /\
     KF_RET.MATRIX_INVERSION_ERROR <> KF_RET.SUCCESS /\
     exists bank',
       updateLMBelief z_a particle_singular =
         Done (PF_RET.MATRIX_INVERSION_ERROR, set_bank bank' particle_singular) /\
       PF_RET.MATRIX_INVERSION_ERROR <> PF_RET.SUCCESS /\
       length bank' = 1%nat /\
       bank' !! 0%nat = Some (ekf', 1) /\
       forall j, j <> 0%nat -> bank' !! j = m_lmekf_bank particle_singular !! j).
Proof.
  split; [reflexivity|].
  split; [exact (proj1 (updateLMBelief_failed_update z_a (particle_three 0 None)) eq_refl)|].
  split; [reflexivity|]. split; [simpl; lia|].
  eexists _, _. split; [reflexivity|]. split; [reflexivity|].
  split; [discriminate|].
  refine (proj2 (updateLMBelief_failed_update z_a particle_singular)
            robot1 _ 1 KF_RET.MATRIX_INVERSION_ERROR _ eq_refl _ eq_refl eq_refl _).
  - simpl. lia.
  - discriminate.
Defined.

Lemma updateLMBelief_label_out_of_bounds_witness :
  m_robot (particle_three 5 (Some robot1)) = Some robot1 /\
  (m_data_label (particle_three 5 (Some robot1)) < 0 \/
   Z.of_nat (length (m_lmekf_bank (particle_three 5 (Some robot1)))) <
     m_data_label (particle_three 5 (Some robot1))) /\
  updateLMBelief z_a (particle_three 5 (Some robot1)) = Fault OutOfBounds.
Proof.
  assert (Hout : m_data_label (particle_three 5 (Some robot1)) < 0 \/
                 Z.of_nat (length (m_lmekf_bank (particle_three 5 (Some robot1)))) <
                   m_data_label (particle_three 5 (Some robot1))).
  { right. simpl. lia. }
  split; [reflexivity|]. split; [exact Hout|].
  exact (updateLMBelief_label_out_of_bounds z_a (particle_three 5 (Some robot1))
           robot1 eq_refl Hout).
Defined.

Lemma cleanUpSightings_skips_only_label_zero_witness :
  m_robot (particle_three 1 (Some robot1)) = Some robot1 /\
  m_data_label (particle_three 1 (Some robot1)) <> 0 /\
  cleanUpSightings (particle_three 1 (Some robot1)) =
    Done (set_bank
            (map (sighting_missed robot1 (m_robot_pose (particle_three 1 (Some robot1))))
                 (m_lmekf_bank (particle_three 1 (Some robot1))))
            (particle_three 1 (Some robot1))) /\
  m_robot (particle_seen 1) = Some robot1 /\
  m_data_label (particle_seen 1) = 0 /\
  cleanUpSightings (particle_seen 1) =
    Done (set_bank
            (take 1 (m_lmekf_bank (particle_seen 1)) ++
             map (sighting_missed robot1 (m_robot_pose (particle_seen 1)))
                 (drop 1 (m_lmekf_bank (particle_seen 1))))
            (particle_seen 1)).
Proof.
  assert (Hne : m_data_label (particle_three 1 (Some robot1)) <> 0)
    by (simpl; lia).
  split; [reflexivity|]. split; [exact Hne|].
  split.
  { exact (proj1 (cleanUpSightings_skips_only_label_zero
                    (particle_three 1 (Some robot1)) robot1 eq_refl) Hne). }
  split; [reflexivity|]. split; [reflexivity|].
  exact (proj2 (cleanUpSightings_skips_only_label_zero
                  (particle_seen 1) robot1 eq_refl) eq_refl).
Defined.

Lemma updateParticle_completes_witness :
  m_robot (particle_three 0 (Some robot1)) = Some robot1 /\
  exists w p',
    updateParticle true z_a (particle_three 0 (Some robot1)) = Done (w, p') /\
    m_importance_factor p' = m_importance_factor (particle_three 0 (Some robot1)) /\
    m_robot_pose p' = m_robot_pose (particle_three 0 (Some robot1)) /\
    m_robot p' = m_robot (particle_three 0 (Some robot1)) /\
    m_data_label p' = (matchLandmark z_a (particle_three 0 (Some robot1))).1 /\
    (length (m_lmekf_bank (particle_three 0 (Some robot1))) <=
       length (m_lmekf_bank p') <=
       S (length (m_lmekf_bank (particle_three 0 (Some robot1)))))%nat.
Proof.
  split; [reflexivity|].
  exact (updateParticle_completes true z_a (particle_three 0 (Some robot1))
           robot1 eq_refl).
Defined.

Lemma updateParticle_first_observation_witness :
  m_robot particle_fresh = Some robot1 /\
  m_lmekf_bank particle_fresh = [] /\
  updateParticle true z_a particle_fresh = Done (xint 1, particle_A1).
Proof.
  split; [reflexivity|]. split; [reflexivity|].
  exact (updateParticle_first_observation true z_a particle_fresh robot1
           eq_refl eq_refl).
Defined.

Lemma drawWithReplacement_never_last_witness :
  (2 <= length [xint 1; xint 2])%nat /\
  last [xint 1; xint 2] = Some (xint 2) /\
  exists r,
    drawWithReplacement [xint 1; xint 2] (Num (3 # 2)) = Done r /\
    r <> Z.of_nat (length [xint 1; xint 2]) - 1 /\
    (flt (Num (3 # 2)) (float_of_int 0) = true \/
     fgt (Num (3 # 2)) (xint 2) = true -> r = -1) /\
    (flt (Num (3 # 2)) (float_of_int 0) = false ->
     fgt (Num (3 # 2)) (xint 2) = false ->
     0 <= r <= Z.of_nat (length [xint 1; xint 2]) - 2).
Proof.
  assert (Hlen : (2 <= length [xint 1; xint 2])%nat) by (simpl; lia).
  split; [exact Hlen|]. split; [reflexivity|].
  exact (drawWithReplacement_never_last [xint 1; xint 2] (Num (3 # 2)) (xint 2)
           Hlen eq_refl).
Defined.

Lemma drawWithReplacement_out_of_range_witness :
  flt (xint (-1)) (float_of_int 0) = true /\
  drawWithReplacement [] (xint (-1)) = Done (-1) /\
  last [xint 1; xint 2] = Some (xint 2) /\
  fgt (xint 3) (xint 2) = true /\
  drawWithReplacement [xint 1; xint 2] (xint 3) = Done (-1).
Proof.
  split; [reflexivity|].
  split; [exact (proj1 (drawWithReplacement_out_of_range [] (xint (-1))) eq_refl)|].
  split; [reflexivity|]. split; [reflexivity|].
  exact (proj2 (drawWithReplacement_out_of_range [xint 1; xint 2] (xint 3))
           (xint 2) eq_refl eq_refl).
Defined.

Lemma drawWithReplacement_off_by_one_witness :
  (2 <= length [xint 1; xint 2])%nat /\
  is_number (xint 1) /\ is_number (float_of_int 0) /\
  Forall is_number [xint 1; xint 2] /\
  flt (xint 1) (float_of_int 0) = false /\
  last [xint 1; xint 2] = Some (xint 2) /\
  flt (xint 1) (xint 2) = true /\
  exists j : nat,
    cdf_interval [xint 1; xint 2] (xint 1) j /\
    (drawWithReplacement [xint 1; xint 2] (xint 1) = Done (Z.of_nat j) \/
     drawWithReplacement [xint 1; xint 2] (xint 1) = Done (Z.of_nat j - 1)).
Proof.
  assert (Hlen : (2 <= length [xint 1; xint 2])%nat) by (simpl; lia).
  assert (Hnum : Forall is_number [xint 1; xint 2]) by (repeat constructor).
  split; [exact Hlen|]. split; [exact I|]. split; [exact I|].
  split; [exact Hnum|]. split; [reflexivity|]. split; [reflexivity|].
  split; [reflexivity|].
  exact (drawWithReplacement_off_by_one (FO := mock_order) [xint 1; xint 2]
           (xint 1) (xint 2) Hlen I I Hnum eq_refl eq_refl eq_refl).
Defined.

Lemma drawWithReplacement_short_cdf_witness :
  flt (xint 0) (float_of_int 0) = false /\
  drawWithReplacement [] (xint 0) = Fault OutOfBounds /\
  fgt (xint 0) (xint 1) = false /\
  drawWithReplacement [xint 1] (xint 0) = Fault UninitialisedRead.
Proof.
  split; [reflexivity|].
  split; [exact (proj1 (drawWithReplacement_short_cdf (xint 0) eq_refl))|].
  split; [reflexivity|].
  exact (proj2 (drawWithReplacement_short_cdf (xint 0) eq_refl) (xint 1) eq_refl).
Defined.

Lemma scenario_keys_distinct :
  NoDup (map fst (m_particle_set filter_start)) /\
  NoDup (map fst (m_particle_set filter_drained)).
Proof.
  split; change (NoDup [1; 0]); exact (bool_decide_unpack (NoDup [1; 0]) I).
Qed.

Lemma reSampleParticles_frame_witness :
  NoDup (map fst (m_particle_set filter_drained)) /\
  reSampleParticles (HP := link_front) filter_drained uniform_draws =
    Done (filter_resampled, []) /\
  m_robot_pf filter_resampled = m_robot_pf filter_drained /\
  m_num_particles filter_resampled = m_num_particles filter_drained /\
  m_particle_weights filter_resampled = m_particle_weights filter_drained /\
  map fst (m_particle_set filter_resampled) ≡ₚ
    map fst (m_particle_set filter_drained) /\
  length (m_particle_set filter_resampled) = length (m_particle_set filter_drained) /\
  Forall (installed_from (m_particle_set filter_drained))
         (m_particle_set filter_resampled).
Proof.
  split; [exact (proj2 scenario_keys_distinct)|]. split; [reflexivity|].
  exact (reSampleParticles_frame (HP := link_front) filter_drained uniform_draws
           filter_resampled [] (proj2 scenario_keys_distinct) eq_refl).
Defined.

Lemma reSampleParticles_completes_witness :
  (2 <= length (m_particle_weights filter_drained))%nat /\
  (forall k, 0 <= k <= Z.of_nat (length (m_particle_weights filter_drained)) - 2 ->
     k ∈ map fst (m_particle_set filter_drained)) /\
  exists pf' rng',
    reSampleParticles (HP := link_front) filter_drained uniform_draws =
      Done (pf', rng').
Proof.
  assert (Hlen : (2 <= length (m_particle_weights filter_drained))%nat)
    by (simpl; lia).
  assert (Hkeys : forall k,
            0 <= k <= Z.of_nat (length (m_particle_weights filter_drained)) - 2 ->
            k ∈ map fst (m_particle_set filter_drained)).
  { intros k Hk. simpl in Hk. assert (k = 0) as -> by lia.
    simpl. apply list_elem_of_further, list_elem_of_here. }
  split; [exact Hlen|]. split; [exact Hkeys|].
  exact (reSampleParticles_completes (HP := link_front) filter_drained
           uniform_draws Hlen Hkeys).
Defined.

Lemma single_weight_reads_uninitialised_witness :
  (genCDF (m_particle_weights filter_single)).2 = [xint 1] /\
  m_particle_set filter_single <> [] /\
  flt (sampleUniform (float_of_int 0)
         (genCDF (m_particle_weights filter_single)).1 [xint 0]).1
      (float_of_int 0) = false /\
  fgt (sampleUniform (float_of_int 0)
         (genCDF (m_particle_weights filter_single)).1 [xint 0]).1
      (xint 1) = false /\
  reSampleParticles (HP := link_front) filter_single [xint 0] =
    Fault UninitialisedRead /\
  sampleLandmarks filter_single [xint 0] = Fault UninitialisedRead.
Proof.
  assert (Hset : m_particle_set filter_single <> []) by discriminate.
  split; [reflexivity|]. split; [exact Hset|].
  split; [reflexivity|]. split; [reflexivity|].
  exact (single_weight_reads_uninitialised (HP := link_front) filter_single
           [xint 0] (xint 1) eq_refl Hset eq_refl eq_refl).
Defined.

Lemma updateFilter_pass_slots_witness :
  updateFilter_particles false filter_start origin z_a
    (m_particle_set filter_start) 0 (m_particle_weights filter_start)
    (normal_draws ++ uniform_draws) =
    Done ([(1, particle_A1); (0, particle_B1)],
          [Num (3 # 2); Num (3 # 2)],
          drop 6 (normal_draws ++ uniform_draws)) /\
  length [Num (3 # 2); Num (3 # 2)] = length (m_particle_weights filter_start) /\
  map fst [(1, particle_A1); (0, particle_B1)] =
    map fst (m_particle_set filter_start) /\
  (forall j, (length (m_particle_set filter_start) <= j)%nat ->
     [Num (3 # 2); Num (3 # 2)] !! j = m_particle_weights filter_start !! j) /\
  (forall k it, m_particle_set filter_start !! k = Some it ->
     exists rng1 pose rng2 w particle old,
       samplePose filter_start origin rng1 = Done (pose, rng2) /\
       updateParticle_at false z_a pose it.2 = Done (w, particle) /\
       [(1, particle_A1); (0, particle_B1)] !! k = Some (it.1, particle) /\
       m_particle_weights filter_start !! k = Some old /\
       [Num (3 # 2); Num (3 # 2)] !! k = Some (fadd old w)).
Proof.
  split; [reflexivity|].
  exact (updateFilter_pass_slots false filter_start origin z_a
           (m_particle_set filter_start) (m_particle_weights filter_start)
           (normal_draws ++ uniform_draws)
           [(1, particle_A1); (0, particle_B1)] [Num (3 # 2); Num (3 # 2)]
           (drop 6 (normal_draws ++ uniform_draws)) eq_refl).
Defined.

Lemma updateFilter_effect_witness :
  NoDup (map fst (m_particle_set filter_start)) /\
  updateFilter (HP := link_front) false filter_start origin [z_a; z_a]
    (normal_draws ++ uniform_draws) = Done (filter_resampled, [], []) /\
  [] = ([] : list Observation2D) /\
  map fst (m_particle_set filter_resampled) ≡ₚ map fst (m_particle_set filter_start) /\
  length (m_particle_weights filter_resampled) =
    length (m_particle_weights filter_start) /\
  Forall bank_is_empty (m_particle_set filter_resampled).
Proof.
  split; [exact (proj1 scenario_keys_distinct)|]. split; [reflexivity|].
  exact (updateFilter_effect (HP := link_front) false filter_start origin
           [z_a; z_a] (normal_draws ++ uniform_draws) filter_resampled [] []
           (proj1 scenario_keys_distinct) eq_refl).
Defined.

Lemma updateFilter_drain_needs_weights_witness :
  updateFilter_drain false filter_start origin [z_a; z_a]
    (normal_draws ++ uniform_draws) = Done (filter_drained, [], uniform_draws) /\
  (length (m_particle_set filter_start) <=
     length (m_particle_weights filter_start))%nat.
Proof.
  split; [reflexivity|].
  exact (updateFilter_drain_needs_weights false filter_start origin z_a [z_a]
           (normal_draws ++ uniform_draws) filter_drained [] uniform_draws
           eq_refl).
Defined.

Lemma sampleLandmarks_after_updateFilter_witness :
  updateFilter (HP := link_front) false filter_start origin [z_a; z_a]
    (normal_draws ++ uniform_draws) = Done (filter_resampled, [], []) /\
  sampleLandmarks filter_resampled [xint 0] = Done ([], []) /\
  ([] : list Point2D) = [].
Proof.
  split; [reflexivity|]. split; [reflexivity|].
  exact (sampleLandmarks_after_updateFilter (HP := link_front) false
           filter_start origin [z_a; z_a] (normal_draws ++ uniform_draws)
           filter_resampled [] [] [xint 0] [] [] eq_refl eq_refl).
Defined.

Lemma sampleLandmarks_out_of_range_witness :
  flt (sampleUniform (float_of_int 0)
         (genCDF (m_particle_weights filter_drained)).1 [xint (-1)]).1
      (float_of_int 0) = true /\
  ((-1) ∉ map fst (m_particle_set filter_drained)) /\
  sampleLandmarks filter_drained [xint (-1)] = Fault OutOfRange.
Proof.
  assert (Hkey : (-1) ∉ map fst (m_particle_set filter_drained)).
  { apply um_find_None. reflexivity. }
  split; [reflexivity|]. split; [exact Hkey|].
  exact (sampleLandmarks_out_of_range filter_drained [xint (-1)] eq_refl Hkey).
Defined.

Lemma FastSLAMPF_new_then_updateFilter_witness :
  updateFilter (HP := link_front) false
    (FastSLAMPF_new (HP := link_front) (Some robot1) 2 origin (xint 1))
    origin [z_a; z_a] (normal_draws ++ uniform_draws) =
    Done (filter_resampled, [], []) /\
  [] = ([] : list Observation2D) /\
  map fst (m_particle_set filter_resampled) ≡ₚ seqZ 0 2 /\
  length (m_particle_set filter_resampled) = Z.to_nat 2 /\
  length (m_particle_weights filter_resampled) = Z.to_nat 2 /\
  Forall bank_is_empty (m_particle_set filter_resampled).
Proof.
  split; [reflexivity|].
  exact (FastSLAMPF_new_then_updateFilter (HP := link_front) false (Some robot1)
           2 origin (xint 1) origin [z_a; z_a] (normal_draws ++ uniform_draws)
           filter_resampled [] [] eq_refl).
Defined.

Lemma updateFilter_null_robot_witness :
  m_robot_pf filter_null = None /\
  m_particle_set filter_null <> [] /\
  updateFilter (HP := link_front) false filter_null origin [z_a]
    normal_draws = Fault NullDereference.
Proof.
  assert (Hset : m_particle_set filter_null <> []) by discriminate.
  split; [reflexivity|]. split; [exact Hset|].
  exact (updateFilter_null_robot (HP := link_front) false filter_null origin
           z_a [] normal_draws eq_refl Hset).
Defined.
